(** * The maintenance-tracking record manager of [app.py]

    A shallow embedding of the six SQLAlchemy models of [app.py] and of the
    Flask routes that create, list, edit and delete their rows, followed by
    the properties of the record store that the specification states.

    The routes are written against three collaborators that are not part of
    [app.py]: Flask's [request] object, SQLAlchemy's session (unit of work)
    and the relational engine behind it.  Each is embedded by the part of
    its documented behaviour that the routes use:

      - [request.form[k]] raises [BadRequestKeyError] when [k] is absent;
      - [Model.query.get_or_404(id)] aborts with 404 when no row has the
        primary key [id];
      - [db.session.delete(obj)] follows the [relationship] declarations:
        a collection declared with [cascade="all, delete"] is loaded and
        its members are deleted with the parent, a collection without the
        delete cascade (the [needs] backref of [MaterialAsset]) is loaded
        and the foreign key of its members is set to NULL;
      - [db.session.commit()] flushes the pending statements in one
        transaction; a request that raises commits nothing.

    Form text is embedded as [string] (ASCII text). *)

From stdpp Require Import base gmap strings list sorting.
From Stdlib Require Import ZArith Lia Ascii String.

(** [length] is the length of a list; the length of text is written
    [String.length]. *)
Abbreviation length := List.length.

Local Open Scope Z_scope.

(** ** Exceptions and results *)

(** What a request can raise.  The first is Flask's [abort(404)] from
    [get_or_404], the second the [KeyError] of [request.form[k]], the third
    the [ValueError] of [datetime.strptime]; the last two are the engine's
    errors surfacing at [db.session.commit()]. *)
Inductive Error : Type :=
  | NotFound
  | BadRequestKeyError
  | ValueError
  | DataError
  | IntegrityError.

#[global] Instance Error_eq_dec : EqDecision Error.
Proof. solve_decision. Defined.

Inductive Result (A : Type) : Type :=
  | Ok (a : A)
  | Raise (e : Error).
Arguments Ok {A} a.
Arguments Raise {A} e.

#[global] Instance Result_ret : MRet Result := fun A a => Ok a.
#[global] Instance Result_bind : MBind Result := fun A B f m =>
  match m with
  | Ok a => f a
  | Raise e => Raise e
  end.

(** ** Text conversions *)

Definition is_digit (c : ascii) : bool :=
  let n := nat_of_ascii c in (48 <=? n)%nat && (n <=? 57)%nat.

Definition digit_value (c : ascii) : Z := Z.of_nat (nat_of_ascii c) - 48.

Fixpoint all_digits (s : string) : bool :=
  match s with
  | EmptyString => true
  | String c s' => is_digit c && all_digits s'
  end.

(** The number written by a string of decimal digits, most significant
    first, continuing from [acc]. *)
Fixpoint digits_value (acc : Z) (s : string) : Z :=
  match s with
  | EmptyString => acc
  | String c s' => digits_value (10 * acc + digit_value c) s'
  end.

Definition unsigned_in (s : string) : option Z :=
  match s with
  | EmptyString => None
  | _ => if all_digits s then Some (digits_value 0 s) else None
  end.

(** An optional sign followed by decimal digits. *)
Definition signed_in (s : string) : option Z :=
  match s with
  | String "-" s' => Z.opp <$> unsigned_in s'
  | String "+" s' => unsigned_in s'
  | _ => unsigned_in s
  end.

(** Splitting at the first occurrence of a character. *)
Fixpoint split_at (sep : ascii) (s : string) : option (string * string) :=
  match s with
  | EmptyString => None
  | String c s' =>
      if Ascii.eqb c sep then Some (EmptyString, s')
      else prod_map (String c) id <$> split_at sep s'
  end.

(** *** Dates: [datetime.strptime(text, '%Y-%m-%d').date()] *)

Record date : Type := mkdate { year : Z; month : Z; day : Z }.

#[global] Instance date_eq_dec : EqDecision date.
Proof. solve_decision. Defined.

Definition is_leap (y : Z) : bool :=
  ((y mod 4 =? 0) && negb (y mod 100 =? 0)) || (y mod 400 =? 0).

Definition days_in_month (y m : Z) : Z :=
  if m =? 2 then (if is_leap y then 29 else 28)
  else if (m =? 4) || (m =? 6) || (m =? 9) || (m =? 11) then 30
  else 31.

(** [%Y] is four digits. *)
Definition directive_Y (s : string) : option Z :=
  if (String.length s =? 4)%nat then unsigned_in s else None.

(** [%m] is [1[0-2]|0[1-9]|[1-9]]: one or two digits that write 1..12. *)
Definition directive_m (s : string) : option Z :=
  if (String.length s <=? 2)%nat then
    match unsigned_in s with
    | Some m => if (1 <=? m) && (m <=? 12) then Some m else None
    | None => None
    end
  else None.

(** [%d] is [3[01]|[12]\d|0[1-9]|[1-9]| [1-9]]: one or two digits that
    write 1..31, or a space and a non-zero digit. *)
Definition directive_d (s : string) : option Z :=
  match s with
  | String " " (String c EmptyString) =>
      if is_digit c && negb (Ascii.eqb c "0") then Some (digit_value c) else None
  | _ =>
      if (String.length s <=? 2)%nat then
        match unsigned_in s with
        | Some d => if (1 <=? d) && (d <=? 31) then Some d else None
        | None => None
        end
      else None
  end.

(** The three directives separated by hyphens, the whole text consumed,
    and a date of the calendar ([date(y, m, d)] rejects year 0 and a day
    past the end of the month). *)
Definition strptime_Ymd (s : string) : Result date :=
  match split_at "-" s with
  | Some (ys, rest) =>
      match split_at "-" rest with
      | Some (ms, ds) =>
          match directive_Y ys, directive_m ms, directive_d ds with
          | Some y, Some m, Some d =>
              if (1 <=? y) && (d <=? days_in_month y m)
              then Ok (mkdate y m d) else Raise ValueError
          | _, _, _ => Raise ValueError
          end
      | None => Raise ValueError
      end
  | None => Raise ValueError
  end.

(** ** The relational engine

    [config.Config], which names the database the application connects
    to, is not part of [app.py].  The engine is embedded as the
    specification describes the storage backend: a SQL engine that
    enforces the declared column types, primary keys and foreign-key
    constraints (with their [ON DELETE CASCADE] actions) and runs every
    request in one transaction. *)

(** Modelled from the spec: the engine's input conversion for an
    [Integer] column, which [config.Config] would select; the routes bind
    the form text itself.  A signed decimal numeral in the 32-bit range is
    accepted, anything else is a [DataError]. *)
Definition integer_in (s : string) : Result Z :=
  match signed_in s with
  | Some z => if (- 2 ^ 31 <=? z) && (z <? 2 ^ 31) then Ok z else Raise DataError
  | None => Raise DataError
  end.

(** Modelled from the spec: the engine's check of a [String(n)] column,
    which [config.Config] would select.  Text longer than the declared
    length is a [DataError]. *)
Definition varchar_in (n : nat) (s : string) : Result string :=
  if (String.length s <=? n)%nat then Ok s else Raise DataError.

(** A decimal numeral [mantissa * 10 ^ (- scale)]. *)
Record decimal : Type := mkdecimal { mantissa : Z; scale : nat }.

Definition strip_sign (s : string) : bool * string :=
  match s with
  | String "-" s' => (true, s')
  | String "+" s' => (false, s')
  | _ => (false, s)
  end.

Definition decimal_in (s : string) : option decimal :=
  let '(neg, body) := strip_sign s in
  let '(ip, fp) := default (body, EmptyString) (split_at "." body) in
  if all_digits ip && all_digits fp
     && negb (String.length ip + String.length fp =? 0)%nat
  then
    let m := digits_value (digits_value 0 ip) fp in
    Some (mkdecimal (if neg then - m else m) (String.length fp))
  else None.

(** [n / d] rounded to the nearest integer, ties away from zero ([0 < d]). *)
Definition round_half_away (n d : Z) : Z :=
  Z.sgn n * ((2 * Z.abs n + d) / (2 * d)).

(** Modelled from the spec: the engine's input conversion for the
    [Numeric(10, 2)] column, which [config.Config] would select ("price
    has exactly two fractional digits of precision").  The stored value is
    a count of hundredths; a numeral is rounded to two fractional digits
    and must fit ten digits. *)
Definition numeric_10_2_in (s : string) : Result Z :=
  match decimal_in s with
  | Some q =>
      let c := round_half_away (mantissa q * 100) (10 ^ Z.of_nat (scale q)) in
      if Z.abs c <? 10 ^ 10 then Ok c else Raise DataError
  | None => Raise DataError
  end.

(** *** Rows and tables *)

(** A row is its [id] column and the remaining columns. *)
Record Row (C : Type) : Type := mkRow { row_id : Z; cols : C }.
Arguments mkRow {C} row_id cols.
Arguments row_id {C} r.
Arguments cols {C} r.

(** A table is its rows in the order in which a scan of the table yields
    them, and the next value of the sequence behind its [id] column. *)
Record Table (C : Type) : Type := mkTable { rows : list (Row C); next_id : Z }.
Arguments mkTable {C} rows next_id.
Arguments rows {C} t.
Arguments next_id {C} t.

Section TableOps.
Context {C : Type}.

Definition pks (t : Table C) : list Z := row_id <$> rows t.

(** [Model.query.all()]: [SELECT ... FROM table], no [ORDER BY]. *)
Definition query_all (t : Table C) : list (Row C) := rows t.

(** [Model.query.get(id)]: the row with that primary key, if any. *)
Definition query_get (t : Table C) (i : Z) : option (Row C) :=
  head (filter (λ r, row_id r = i) (rows t)).

Definition get_or_404 (t : Table C) (i : Z) : Result (Row C) :=
  match query_get t i with
  | Some r => Ok r
  | None => Raise NotFound
  end.

(** [INSERT INTO table (...) VALUES (...)]: the row takes the next value
    of the sequence; a primary key already in use is refused. *)
Definition INSERT (c : C) (t : Table C) : Result (Table C) :=
  if decide (next_id t ∈ pks t) then Raise IntegrityError
  else Ok (mkTable (rows t ++ [mkRow (next_id t) c]) (next_id t + 1)).

(** [UPDATE table SET ... WHERE id = i]. *)
Definition UPDATE (i : Z) (c : C) (t : Table C) : Table C :=
  mkTable ((λ r, if decide (row_id r = i) then mkRow i c else r) <$> rows t)
          (next_id t).

(** [UPDATE table SET column = ... WHERE id IN ks], as a change [f] of
    the other columns. *)
Definition UPDATE_in (ks : list Z) (f : C → C) (t : Table C) : Table C :=
  mkTable ((λ r, if decide (row_id r ∈ ks) then mkRow (row_id r) (f (cols r))
                 else r) <$> rows t)
          (next_id t).

(** [DELETE FROM table WHERE P]. *)
Definition DELETE (P : Row C → Prop) `{!∀ r, Decision (P r)}
    (t : Table C) : Table C :=
  mkTable (filter (λ r, ¬ P r) (rows t)) (next_id t).
End TableOps.

(** A foreign-key value resolves when it is NULL or the primary key of a
    row of the referenced table. *)
Definition fk_resolves {P : Type} (parent : Table P) (fk : option Z) : Prop :=
  match fk with
  | Some k => k ∈ pks parent
  | None => True
  end.

#[global] Instance fk_resolves_dec {P} (parent : Table P) fk :
  Decision (fk_resolves parent fk).
Proof. destruct fk; simpl; apply _. Defined.

(** A foreign-key value references one of the keys [ks]. *)
Definition fk_in (ks : list Z) (fk : option Z) : Prop :=
  match fk with
  | Some k => k ∈ ks
  | None => False
  end.

#[global] Instance fk_in_dec ks fk : Decision (fk_in ks fk).
Proof. destruct fk; simpl; apply _. Defined.

(** Modelled from the spec: the check of a foreign-key constraint on a
    new value, by the engine that [config.Config] would select, which the
    specification requires to support foreign-key constraints.  A value
    that does not resolve is an [IntegrityError]. *)
Definition check_fk {P : Type} (parent : Table P) (fk : option Z) : Result unit :=
  if decide (fk_resolves parent fk) then Ok tt else Raise IntegrityError.

(** ** The models *)

Module Equipment.
Record t : Type := mk {
  type : option string;
  name : option string;
  status : option string;
  lastmaintenancedate : option date
}.
End Equipment.

Module TOROEvent.
Record t : Type := mk {
  name : option string;
  description : option string
}.
End TOROEvent.

Module MaintenancePlan.
Record t : Type := mk {
  equipmentid : option Z;
  eventid : option Z;
  periodicity : option string
}.
End MaintenancePlan.

Module MaterialAsset.
Record t : Type := mk {
  materialname : option string;
  price : option Z
}.
End MaterialAsset.

Module Need.
Record t : Type := mk {
  maintenanceplanid : option Z;
  materialassetid : option Z;
  quantity : option Z
}.
End Need.

Module CompletedWork.
Record t : Type := mk {
  maintenanceplanid : option Z;
  completion_date : option date
}.
End CompletedWork.

(** The six tables, under their [__tablename__]. *)
Record Store : Type := mkStore {
  equipment : Table Equipment.t;
  toro_event : Table TOROEvent.t;
  maintenance_plan : Table MaintenancePlan.t;
  material_assets : Table MaterialAsset.t;
  needs : Table Need.t;
  completed_work : Table CompletedWork.t
}.

Definition set_equipment (t : Table Equipment.t) (st : Store) : Store :=
  mkStore t (toro_event st) (maintenance_plan st) (material_assets st)
          (needs st) (completed_work st).
Definition set_toro_event (t : Table TOROEvent.t) (st : Store) : Store :=
  mkStore (equipment st) t (maintenance_plan st) (material_assets st)
          (needs st) (completed_work st).
Definition set_maintenance_plan (t : Table MaintenancePlan.t) (st : Store) : Store :=
  mkStore (equipment st) (toro_event st) t (material_assets st)
          (needs st) (completed_work st).
Definition set_material_assets (t : Table MaterialAsset.t) (st : Store) : Store :=
  mkStore (equipment st) (toro_event st) (maintenance_plan st) t
          (needs st) (completed_work st).
Definition set_needs (t : Table Need.t) (st : Store) : Store :=
  mkStore (equipment st) (toro_event st) (maintenance_plan st)
          (material_assets st) t (completed_work st).
Definition set_completed_work (t : Table CompletedWork.t) (st : Store) : Store :=
  mkStore (equipment st) (toro_event st) (maintenance_plan st)
          (material_assets st) (needs st) t.

(** *** Statements

    Each statement is the effect on the store of one SQL statement that
    the session emits at [commit()].  A statement on a referenced table
    carries the [ON DELETE CASCADE] action of the foreign keys declared on
    it ([ondelete='CASCADE'] in the models). *)

Definition DELETE_needs (ks : list Z) (st : Store) : Store :=
  set_needs (DELETE (λ r, row_id r ∈ ks) (needs st)) st.

Definition DELETE_completed_work (ks : list Z) (st : Store) : Store :=
  set_completed_work (DELETE (λ r, row_id r ∈ ks) (completed_work st)) st.

(** Deleting the plans that satisfy [P] deletes the rows of [needs] and
    [completed_work] whose [maintenanceplanid] references one of them. *)
Definition DELETE_maintenance_plan_where
    (P : Row MaintenancePlan.t → Prop) `{!∀ r, Decision (P r)}
    (st : Store) : Store :=
  let gone := row_id <$> filter P (rows (maintenance_plan st)) in
  set_maintenance_plan (DELETE P (maintenance_plan st))
    (set_needs
       (DELETE (λ r, fk_in gone (Need.maintenanceplanid (cols r))) (needs st))
       (set_completed_work
          (DELETE (λ r, fk_in gone (CompletedWork.maintenanceplanid (cols r)))
                  (completed_work st))
          st)).

Definition DELETE_maintenance_plan (ks : list Z) (st : Store) : Store :=
  DELETE_maintenance_plan_where (λ r, row_id r ∈ ks) st.

(** Deleting equipment deletes the plans whose [equipmentid] references
    it, with their own cascade. *)
Definition DELETE_equipment (ks : list Z) (st : Store) : Store :=
  set_equipment (DELETE (λ r, row_id r ∈ ks) (equipment st))
    (DELETE_maintenance_plan_where
       (λ r, fk_in ks (MaintenancePlan.equipmentid (cols r))) st).

Definition DELETE_toro_event (ks : list Z) (st : Store) : Store :=
  set_toro_event (DELETE (λ r, row_id r ∈ ks) (toro_event st))
    (DELETE_maintenance_plan_where
       (λ r, fk_in ks (MaintenancePlan.eventid (cols r))) st).

(** Deleting material assets deletes the needs whose [materialassetid]
    references them. *)
Definition DELETE_material_assets (ks : list Z) (st : Store) : Store :=
  set_material_assets (DELETE (λ r, row_id r ∈ ks) (material_assets st))
    (set_needs
       (DELETE (λ r, fk_in ks (Need.materialassetid (cols r))) (needs st)) st).

(** [UPDATE needs SET materialassetid = NULL WHERE id IN ks]. *)
Definition UPDATE_needs_materialassetid_NULL (ks : list Z) (st : Store) : Store :=
  set_needs
    (UPDATE_in ks (λ c, Need.mk (Need.maintenanceplanid c) None (Need.quantity c))
               (needs st)) st.

(** The [INSERT] and [UPDATE] of each table take the values the route
    bound: form text for the [String], [Text], [Integer] and [Numeric]
    columns, a date for the [Date] columns.  The engine converts the text
    to the column type and checks the foreign keys. *)

Definition equipment_values (type name status : string)
    (lastmaintenancedate : option date) : Result Equipment.t :=
  type ← varchar_in 255 type;
  name ← varchar_in 255 name;
  status ← varchar_in 50 status;
  Ok (Equipment.mk (Some type) (Some name) (Some status) lastmaintenancedate).

Definition INSERT_equipment (type name status : string)
    (lastmaintenancedate : option date) (st : Store) : Result Store :=
  c ← equipment_values type name status lastmaintenancedate;
  t ← INSERT c (equipment st);
  Ok (set_equipment t st).

Definition UPDATE_equipment (i : Z) (type name status : string)
    (lastmaintenancedate : option date) (st : Store) : Result Store :=
  c ← equipment_values type name status lastmaintenancedate;
  Ok (set_equipment (UPDATE i c (equipment st)) st).

Definition toro_event_values (name description : string) : Result TOROEvent.t :=
  name ← varchar_in 255 name;
  Ok (TOROEvent.mk (Some name) (Some description)).

Definition INSERT_toro_event (name description : string) (st : Store)
    : Result Store :=
  c ← toro_event_values name description;
  t ← INSERT c (toro_event st);
  Ok (set_toro_event t st).

Definition UPDATE_toro_event (i : Z) (name description : string) (st : Store)
    : Result Store :=
  c ← toro_event_values name description;
  Ok (set_toro_event (UPDATE i c (toro_event st)) st).

Definition maintenance_plan_values (equipmentid eventid periodicity : string)
    (st : Store) : Result MaintenancePlan.t :=
  equipmentid ← integer_in equipmentid;
  eventid ← integer_in eventid;
  periodicity ← varchar_in 50 periodicity;
  _ ← check_fk (equipment st) (Some equipmentid);
  _ ← check_fk (toro_event st) (Some eventid);
  Ok (MaintenancePlan.mk (Some equipmentid) (Some eventid) (Some periodicity)).

Definition INSERT_maintenance_plan (equipmentid eventid periodicity : string)
    (st : Store) : Result Store :=
  c ← maintenance_plan_values equipmentid eventid periodicity st;
  t ← INSERT c (maintenance_plan st);
  Ok (set_maintenance_plan t st).

Definition UPDATE_maintenance_plan (i : Z)
    (equipmentid eventid periodicity : string) (st : Store) : Result Store :=
  c ← maintenance_plan_values equipmentid eventid periodicity st;
  Ok (set_maintenance_plan (UPDATE i c (maintenance_plan st)) st).

Definition material_assets_values (materialname price : string)
    : Result MaterialAsset.t :=
  materialname ← varchar_in 255 materialname;
  price ← numeric_10_2_in price;
  Ok (MaterialAsset.mk (Some materialname) (Some price)).

Definition INSERT_material_assets (materialname price : string) (st : Store)
    : Result Store :=
  c ← material_assets_values materialname price;
  t ← INSERT c (material_assets st);
  Ok (set_material_assets t st).

Definition UPDATE_material_assets (i : Z) (materialname price : string)
    (st : Store) : Result Store :=
  c ← material_assets_values materialname price;
  Ok (set_material_assets (UPDATE i c (material_assets st)) st).

Definition needs_values (maintenanceplanid materialassetid quantity : string)
    (st : Store) : Result Need.t :=
  maintenanceplanid ← integer_in maintenanceplanid;
  materialassetid ← integer_in materialassetid;
  quantity ← integer_in quantity;
  _ ← check_fk (maintenance_plan st) (Some maintenanceplanid);
  _ ← check_fk (material_assets st) (Some materialassetid);
  Ok (Need.mk (Some maintenanceplanid) (Some materialassetid) (Some quantity)).

Definition INSERT_needs (maintenanceplanid materialassetid quantity : string)
    (st : Store) : Result Store :=
  c ← needs_values maintenanceplanid materialassetid quantity st;
  t ← INSERT c (needs st);
  Ok (set_needs t st).

Definition UPDATE_needs (i : Z)
    (maintenanceplanid materialassetid quantity : string) (st : Store)
    : Result Store :=
  c ← needs_values maintenanceplanid materialassetid quantity st;
  Ok (set_needs (UPDATE i c (needs st)) st).

Definition completed_work_values (maintenanceplanid : string)
    (completion_date : date) (st : Store) : Result CompletedWork.t :=
  maintenanceplanid ← integer_in maintenanceplanid;
  _ ← check_fk (maintenance_plan st) (Some maintenanceplanid);
  Ok (CompletedWork.mk (Some maintenanceplanid) (Some completion_date)).

Definition INSERT_completed_work (maintenanceplanid : string)
    (completion_date : date) (st : Store) : Result Store :=
  c ← completed_work_values maintenanceplanid completion_date st;
  t ← INSERT c (completed_work st);
  Ok (set_completed_work t st).

Definition UPDATE_completed_work (i : Z) (maintenanceplanid : string)
    (completion_date : date) (st : Store) : Result Store :=
  c ← completed_work_values maintenanceplanid completion_date st;
  Ok (set_completed_work (UPDATE i c (completed_work st)) st).

(** ** The session

    [db.session.delete(obj)] followed by [db.session.commit()], one
    definition per model, following the [relationship] declarations. *)

(** The collections, loaded by the session when it needs them. *)
Definition Equipment_maintenance_plans (st : Store) (e : Row Equipment.t)
    : list (Row MaintenancePlan.t) :=
  filter (λ p, MaintenancePlan.equipmentid (cols p) = Some (row_id e))
         (rows (maintenance_plan st)).

Definition TOROEvent_maintenance_plans (st : Store) (e : Row TOROEvent.t)
    : list (Row MaintenancePlan.t) :=
  filter (λ p, MaintenancePlan.eventid (cols p) = Some (row_id e))
         (rows (maintenance_plan st)).

Definition MaintenancePlan_needs (st : Store) (p : Row MaintenancePlan.t)
    : list (Row Need.t) :=
  filter (λ n, Need.maintenanceplanid (cols n) = Some (row_id p))
         (rows (needs st)).

Definition MaintenancePlan_completed_works (st : Store)
    (p : Row MaintenancePlan.t) : list (Row CompletedWork.t) :=
  filter (λ w, CompletedWork.maintenanceplanid (cols w) = Some (row_id p))
         (rows (completed_work st)).

(** The backref that [Need.material_asset] declares on [MaterialAsset]. *)
Definition MaterialAsset_needs (st : Store) (a : Row MaterialAsset.t)
    : list (Row Need.t) :=
  filter (λ n, Need.materialassetid (cols n) = Some (row_id a))
         (rows (needs st)).

(** [needs] and [completed_works] are declared [cascade="all, delete"]:
    the members of both collections are deleted before the plans. *)
Definition session_delete_plans (plans : list (Row MaintenancePlan.t))
    (st : Store) : Store :=
  let ns := plans ≫= MaintenancePlan_needs st in
  let ws := plans ≫= MaintenancePlan_completed_works st in
  DELETE_maintenance_plan (row_id <$> plans)
    (DELETE_completed_work (row_id <$> ws)
       (DELETE_needs (row_id <$> ns) st)).

(** [maintenance_plans] is declared [cascade="all, delete"] on both
    [Equipment] and [TOROEvent]. *)
Definition session_delete_equipment (e : Row Equipment.t) (st : Store) : Store :=
  DELETE_equipment [row_id e]
    (session_delete_plans (Equipment_maintenance_plans st e) st).

Definition session_delete_event (e : Row TOROEvent.t) (st : Store) : Store :=
  DELETE_toro_event [row_id e]
    (session_delete_plans (TOROEvent_maintenance_plans st e) st).

Definition session_delete_plan (p : Row MaintenancePlan.t) (st : Store) : Store :=
  session_delete_plans [p] st.

(** The [needs] backref carries no delete cascade: the session sets the
    [materialassetid] of its members to NULL, then deletes the asset. *)
Definition session_delete_asset (a : Row MaterialAsset.t) (st : Store) : Store :=
  DELETE_material_assets [row_id a]
    (UPDATE_needs_materialassetid_NULL (row_id <$> MaterialAsset_needs st a) st).

Definition session_delete_need (n : Row Need.t) (st : Store) : Store :=
  DELETE_needs [row_id n] st.

Definition session_delete_completed (w : Row CompletedWork.t) (st : Store)
    : Store :=
  DELETE_completed_work [row_id w] st.

(** ** Requests and responses *)

Inductive Method : Type := GET | POST.

Record Request : Type := mkRequest {
  method : Method;
  form : gmap string string
}.

(** [request.form[k]] *)
Definition request_form (req : Request) (k : string) : Result string :=
  match form req !! k with
  | Some v => Ok v
  | None => Raise BadRequestKeyError
  end.

Inductive Response (A : Type) : Type :=
  | redirect (endpoint : string)
  | render_template (template : string) (context : A).
Arguments redirect {A} endpoint.
Arguments render_template {A} template context.

(** The body of a route: from the store at the start of the request to a
    response and the store it committed, or to an exception. *)
Definition Handler (A : Type) : Type := Store → Result (Response A * Store).

(** One request.  The session is discarded when the request ends, so a
    route that raises leaves the store as it found it. *)
Definition serve {A : Type} (h : Handler A) (st : Store)
    : Result (Response A) * Store :=
  match h st with
  | Ok (r, st') => (Ok r, st')
  | Raise e => (Raise e, st)
  end.

(** [strptime(text, '%Y-%m-%d').date() if text else None] *)
Definition optional_date (text : string) : Result (option date) :=
  if decide (text = EmptyString) then Ok None
  else d ← strptime_Ymd text; Ok (Some d).

(** ** Routes for Equipment *)

Definition list_equipment : Handler (list (Row Equipment.t)) := λ st,
  let equipments := query_all (equipment st) in
  Ok (render_template "equipment_list.html" equipments, st).

Definition create_equipment (req : Request)
    : Handler (option (Row Equipment.t)) := λ st,
  match method req with
  | POST =>
      type ← request_form req "type";
      name ← request_form req "name";
      status ← request_form req "status";
      text ← request_form req "lastmaintenancedate";
      lastmaintenancedate ← optional_date text;
      st' ← INSERT_equipment type name status lastmaintenancedate st;
      Ok (redirect "list_equipment", st')
  | GET => Ok (render_template "equipment_form.html" None, st)
  end.

Definition edit_equipment (req : Request) (id : Z)
    : Handler (option (Row Equipment.t)) := λ st,
  equipment_ ← get_or_404 (equipment st) id;
  match method req with
  | POST =>
      type ← request_form req "type";
      name ← request_form req "name";
      status ← request_form req "status";
      text ← request_form req "lastmaintenancedate";
      lastmaintenancedate ← optional_date text;
      st' ← UPDATE_equipment (row_id equipment_) type name status
                             lastmaintenancedate st;
      Ok (redirect "list_equipment", st')
  | GET => Ok (render_template "equipment_form.html" (Some equipment_), st)
  end.

Definition delete_equipment (id : Z) : Handler unit := λ st,
  equipment_ ← get_or_404 (equipment st) id;
  Ok (redirect "list_equipment", session_delete_equipment equipment_ st).

(** ** Routes for TORO_Event *)

Definition list_events : Handler (list (Row TOROEvent.t)) := λ st,
  let events := query_all (toro_event st) in
  Ok (render_template "events_list.html" events, st).

Definition create_event (req : Request)
    : Handler (option (Row TOROEvent.t)) := λ st,
  match method req with
  | POST =>
      name ← request_form req "name";
      description ← request_form req "description";
      st' ← INSERT_toro_event name description st;
      Ok (redirect "list_events", st')
  | GET => Ok (render_template "events_form.html" None, st)
  end.

Definition edit_event (req : Request) (id : Z)
    : Handler (option (Row TOROEvent.t)) := λ st,
  event ← get_or_404 (toro_event st) id;
  match method req with
  | POST =>
      name ← request_form req "name";
      description ← request_form req "description";
      st' ← UPDATE_toro_event (row_id event) name description st;
      Ok (redirect "list_events", st')
  | GET => Ok (render_template "events_form.html" (Some event), st)
  end.

Definition delete_event (id : Z) : Handler unit := λ st,
  event ← get_or_404 (toro_event st) id;
  Ok (redirect "list_events", session_delete_event event st).

(** ** Routes for MaintenancePlan *)

Definition PlanForm : Type :=
  option (Row MaintenancePlan.t) * list (Row Equipment.t)
  * list (Row TOROEvent.t).

Definition list_plans : Handler (list (Row MaintenancePlan.t)) := λ st,
  let plans := query_all (maintenance_plan st) in
  Ok (render_template "plans_list.html" plans, st).

Definition create_plan (req : Request) : Handler PlanForm := λ st,
  let equipments := query_all (equipment st) in
  let events := query_all (toro_event st) in
  match method req with
  | POST =>
      equipmentid ← request_form req "equipmentid";
      eventid ← request_form req "eventid";
      periodicity ← request_form req "periodicity";
      st' ← INSERT_maintenance_plan equipmentid eventid periodicity st;
      Ok (redirect "list_plans", st')
  | GET =>
      Ok (render_template "plans_form.html" (None, equipments, events), st)
  end.

Definition edit_plan (req : Request) (id : Z) : Handler PlanForm := λ st,
  plan ← get_or_404 (maintenance_plan st) id;
  let equipments := query_all (equipment st) in
  let events := query_all (toro_event st) in
  match method req with
  | POST =>
      equipmentid ← request_form req "equipmentid";
      eventid ← request_form req "eventid";
      periodicity ← request_form req "periodicity";
      st' ← UPDATE_maintenance_plan (row_id plan) equipmentid eventid
                                    periodicity st;
      Ok (redirect "list_plans", st')
  | GET =>
      Ok (render_template "plans_form.html" (Some plan, equipments, events), st)
  end.

Definition delete_plan (id : Z) : Handler unit := λ st,
  plan ← get_or_404 (maintenance_plan st) id;
  Ok (redirect "list_plans", session_delete_plan plan st).

(** ** Routes for MaterialAssets *)

Definition list_assets : Handler (list (Row MaterialAsset.t)) := λ st,
  let assets := query_all (material_assets st) in
  Ok (render_template "assets_list.html" assets, st).

Definition create_asset (req : Request)
    : Handler (option (Row MaterialAsset.t)) := λ st,
  match method req with
  | POST =>
      materialname ← request_form req "materialname";
      price ← request_form req "price";
      st' ← INSERT_material_assets materialname price st;
      Ok (redirect "list_assets", st')
  | GET => Ok (render_template "assets_form.html" None, st)
  end.

Definition edit_asset (req : Request) (id : Z)
    : Handler (option (Row MaterialAsset.t)) := λ st,
  asset ← get_or_404 (material_assets st) id;
  match method req with
  | POST =>
      materialname ← request_form req "materialname";
      price ← request_form req "price";
      st' ← UPDATE_material_assets (row_id asset) materialname price st;
      Ok (redirect "list_assets", st')
  | GET => Ok (render_template "assets_form.html" (Some asset), st)
  end.

Definition delete_asset (id : Z) : Handler unit := λ st,
  asset ← get_or_404 (material_assets st) id;
  Ok (redirect "list_assets", session_delete_asset asset st).

(** ** Routes for Needs *)

Definition NeedForm : Type :=
  option (Row Need.t) * list (Row MaintenancePlan.t)
  * list (Row MaterialAsset.t).

Definition list_needs : Handler (list (Row Need.t)) := λ st,
  let needs_ := query_all (needs st) in
  Ok (render_template "needs_list.html" needs_, st).

Definition create_need (req : Request) : Handler NeedForm := λ st,
  let plans := query_all (maintenance_plan st) in
  let assets := query_all (material_assets st) in
  match method req with
  | POST =>
      maintenanceplanid ← request_form req "maintenanceplanid";
      materialassetid ← request_form req "materialassetid";
      quantity ← request_form req "quantity";
      st' ← INSERT_needs maintenanceplanid materialassetid quantity st;
      Ok (redirect "list_needs", st')
  | GET => Ok (render_template "needs_form.html" (None, plans, assets), st)
  end.

Definition edit_need (req : Request) (id : Z) : Handler NeedForm := λ st,
  need ← get_or_404 (needs st) id;
  let plans := query_all (maintenance_plan st) in
  let assets := query_all (material_assets st) in
  match method req with
  | POST =>
      maintenanceplanid ← request_form req "maintenanceplanid";
      materialassetid ← request_form req "materialassetid";
      quantity ← request_form req "quantity";
      st' ← UPDATE_needs (row_id need) maintenanceplanid materialassetid
                         quantity st;
      Ok (redirect "list_needs", st')
  | GET => Ok (render_template "needs_form.html" (Some need, plans, assets), st)
  end.

Definition delete_need (id : Z) : Handler unit := λ st,
  need ← get_or_404 (needs st) id;
  Ok (redirect "list_needs", session_delete_need need st).

(** ** Routes for CompletedWork *)

Definition CompletedForm : Type :=
  option (Row CompletedWork.t) * list (Row MaintenancePlan.t).

Definition list_completed : Handler (list (Row CompletedWork.t)) := λ st,
  let completed_list := query_all (completed_work st) in
  Ok (render_template "completed_list.html" completed_list, st).

Definition create_completed (req : Request) : Handler CompletedForm := λ st,
  let plans := query_all (maintenance_plan st) in
  match method req with
  | POST =>
      maintenanceplanid ← request_form req "maintenanceplanid";
      text ← request_form req "completion_date";
      completion_date ← strptime_Ymd text;
      st' ← INSERT_completed_work maintenanceplanid completion_date st;
      Ok (redirect "list_completed", st')
  | GET => Ok (render_template "completed_form.html" (None, plans), st)
  end.

Definition edit_completed (req : Request) (id : Z)
    : Handler CompletedForm := λ st,
  completed ← get_or_404 (completed_work st) id;
  let plans := query_all (maintenance_plan st) in
  match method req with
  | POST =>
      maintenanceplanid ← request_form req "maintenanceplanid";
      text ← request_form req "completion_date";
      completion_date ← strptime_Ymd text;
      st' ← UPDATE_completed_work (row_id completed) maintenanceplanid
                                  completion_date st;
      Ok (redirect "list_completed", st')
  | GET =>
      Ok (render_template "completed_form.html" (Some completed, plans), st)
  end.

Definition delete_completed (id : Z) : Handler unit := λ st,
  completed ← get_or_404 (completed_work st) id;
  Ok (redirect "list_completed", session_delete_completed completed st).

(** ** The URL map

    The six groups of routes have the same shape; the URL map selects a
    route by the entity its path names. *)

Inductive Entity : Type :=
  | EQUIPMENT | EVENT | PLAN | ASSET | NEED | COMPLETED.

#[global] Instance Entity_eq_dec : EqDecision Entity.
Proof. solve_decision. Defined.

Definition Cols (e : Entity) : Type :=
  match e with
  | EQUIPMENT => Equipment.t
  | EVENT => TOROEvent.t
  | PLAN => MaintenancePlan.t
  | ASSET => MaterialAsset.t
  | NEED => Need.t
  | COMPLETED => CompletedWork.t
  end.

Definition table (e : Entity) : Store → Table (Cols e) :=
  match e with
  | EQUIPMENT => equipment
  | EVENT => toro_event
  | PLAN => maintenance_plan
  | ASSET => material_assets
  | NEED => needs
  | COMPLETED => completed_work
  end.

Definition FormContext (e : Entity) : Type :=
  match e with
  | EQUIPMENT => option (Row Equipment.t)
  | EVENT => option (Row TOROEvent.t)
  | PLAN => PlanForm
  | ASSET => option (Row MaterialAsset.t)
  | NEED => NeedForm
  | COMPLETED => CompletedForm
  end.

Definition list_endpoint (e : Entity) : string :=
  match e with
  | EQUIPMENT => "list_equipment"
  | EVENT => "list_events"
  | PLAN => "list_plans"
  | ASSET => "list_assets"
  | NEED => "list_needs"
  | COMPLETED => "list_completed"
  end.

Definition list_template (e : Entity) : string :=
  match e with
  | EQUIPMENT => "equipment_list.html"
  | EVENT => "events_list.html"
  | PLAN => "plans_list.html"
  | ASSET => "assets_list.html"
  | NEED => "needs_list.html"
  | COMPLETED => "completed_list.html"
  end.

Definition list_route (e : Entity) : Handler (list (Row (Cols e))) :=
  match e with
  | EQUIPMENT => list_equipment
  | EVENT => list_events
  | PLAN => list_plans
  | ASSET => list_assets
  | NEED => list_needs
  | COMPLETED => list_completed
  end.

Definition create_route (e : Entity) : Request → Handler (FormContext e) :=
  match e with
  | EQUIPMENT => create_equipment
  | EVENT => create_event
  | PLAN => create_plan
  | ASSET => create_asset
  | NEED => create_need
  | COMPLETED => create_completed
  end.

Definition edit_route (e : Entity) : Request → Z → Handler (FormContext e) :=
  match e with
  | EQUIPMENT => edit_equipment
  | EVENT => edit_event
  | PLAN => edit_plan
  | ASSET => edit_asset
  | NEED => edit_need
  | COMPLETED => edit_completed
  end.

Definition delete_route (e : Entity) : Z → Handler unit :=
  match e with
  | EQUIPMENT => delete_equipment
  | EVENT => delete_event
  | PLAN => delete_plan
  | ASSET => delete_asset
  | NEED => delete_need
  | COMPLETED => delete_completed
  end.

(** The type of a column, as far as the text bound to it is concerned.
    [DATE] is a [Date] column that the route fills with
    [strptime(text, '%Y-%m-%d').date()], [DATE_or_empty] one that it
    fills with [None] when the text is empty. *)
Inductive Column : Type :=
  | VARCHAR (n : nat)
  | TEXT
  | INTEGER
  | NUMERIC_10_2
  | DATE
  | DATE_or_empty.

(** The form keys that the create and edit routes of an entity read, in
    the order in which they read them, each with the column it fills. *)
Definition columns (e : Entity) : list (string * Column) :=
  match e with
  | EQUIPMENT =>
      [("type", VARCHAR 255); ("name", VARCHAR 255); ("status", VARCHAR 50);
       ("lastmaintenancedate", DATE_or_empty)]
  | EVENT => [("name", VARCHAR 255); ("description", TEXT)]
  | PLAN =>
      [("equipmentid", INTEGER); ("eventid", INTEGER);
       ("periodicity", VARCHAR 50)]
  | ASSET => [("materialname", VARCHAR 255); ("price", NUMERIC_10_2)]
  | NEED =>
      [("maintenanceplanid", INTEGER); ("materialassetid", INTEGER);
       ("quantity", INTEGER)]
  | COMPLETED => [("maintenanceplanid", INTEGER); ("completion_date", DATE)]
  end.

Definition form_keys (e : Entity) : list string := (columns e).*1.

(** The text that a column takes. *)
Definition accepts (c : Column) (text : string) : Prop :=
  match c with
  | VARCHAR n => (String.length text ≤ n)%nat
  | TEXT => True
  | INTEGER => ∃ z, integer_in text = Ok z
  | NUMERIC_10_2 => ∃ z, numeric_10_2_in text = Ok z
  | DATE => ∃ d, strptime_Ymd text = Ok d
  | DATE_or_empty => ∃ d, optional_date text = Ok d
  end.

(** The [ForeignKey] columns of an entity, each with the entity whose
    [id] it references. *)
Definition references (e : Entity) : list (string * Entity) :=
  match e with
  | PLAN => [("equipmentid", EQUIPMENT); ("eventid", EVENT)]
  | NEED => [("maintenanceplanid", PLAN); ("materialassetid", ASSET)]
  | COMPLETED => [("maintenanceplanid", PLAN)]
  | _ => []
  end.

(** A row with primary key [i] is present. *)
Definition has_row (e : Entity) (st : Store) (i : Z) : Prop :=
  i ∈ pks (table e st).

#[global] Instance has_row_dec e st i : Decision (has_row e st i).
Proof. unfold has_row. apply _. Defined.

(** The number of rows in the six tables. *)
Definition row_count (st : Store) : nat :=
  (length (rows (equipment st)) + length (rows (toro_event st))
   + length (rows (maintenance_plan st)) + length (rows (material_assets st))
   + length (rows (needs st)) + length (rows (completed_work st)))%nat.

(** ** What the engine maintains

    Primary keys are unique, and every foreign key that is not NULL
    resolves. *)

Definition primary_keys (st : Store) : Prop :=
  NoDup (pks (equipment st)) ∧ NoDup (pks (toro_event st))
  ∧ NoDup (pks (maintenance_plan st)) ∧ NoDup (pks (material_assets st))
  ∧ NoDup (pks (needs st)) ∧ NoDup (pks (completed_work st)).

Definition foreign_keys (st : Store) : Prop :=
  Forall (λ p, fk_resolves (equipment st) (MaintenancePlan.equipmentid (cols p))
               ∧ fk_resolves (toro_event st) (MaintenancePlan.eventid (cols p)))
         (rows (maintenance_plan st))
  ∧ Forall (λ n, fk_resolves (maintenance_plan st)
                             (Need.maintenanceplanid (cols n))
                 ∧ fk_resolves (material_assets st)
                               (Need.materialassetid (cols n)))
           (rows (needs st))
  ∧ Forall (λ w, fk_resolves (maintenance_plan st)
                             (CompletedWork.maintenanceplanid (cols w)))
           (rows (completed_work st)).

Definition consistent (st : Store) : Prop :=
  primary_keys st ∧ foreign_keys st.

#[global] Instance consistent_dec st : Decision (consistent st).
Proof. unfold consistent, primary_keys, foreign_keys. apply _. Defined.

(** ** Example stores *)

Definition POST_form (l : list (string * string)) : Request :=
  mkRequest POST (list_to_map l).

Definition empty_store : Store :=
  mkStore (mkTable [] 1) (mkTable [] 1) (mkTable [] 1)
          (mkTable [] 1) (mkTable [] 1) (mkTable [] 1).

(** The scenario of the specification: a mower, an event, a monthly plan
    for them, a material asset and a need of two units of it. *)
Definition scenario : Store :=
  mkStore
    (mkTable [mkRow 1 (Equipment.mk (Some "Mower") (Some "M1") (Some "active")
                                    None)] 2)
    (mkTable [mkRow 1 (TOROEvent.mk (Some "Blade sharpening") (Some "..."))] 2)
    (mkTable [mkRow 1 (MaintenancePlan.mk (Some 1) (Some 1) (Some "monthly"))] 2)
    (mkTable [mkRow 1 (MaterialAsset.mk (Some "Whetstone") (Some 1250))] 2)
    (mkTable [mkRow 1 (Need.mk (Some 1) (Some 1) (Some 2))] 2)
    (mkTable [] 1).

(** Two mowers whose table yields the second before the first. *)
Definition two_mowers : Store :=
  set_equipment
    (mkTable [mkRow 2 (Equipment.mk (Some "Mower") (Some "M2") (Some "active")
                                    None);
              mkRow 1 (Equipment.mk (Some "Mower") (Some "M1") (Some "active")
                                    None)] 3)
    empty_store.

(** ** The values of a form *)

(** The columns [c] hold what the form of [req] supplies: text as it is,
    an integer or a date as the text writes it, a price as the
    hundredths the text writes (exactly, when the text has at most two
    fractional digits). *)
Definition submitted (e : Entity) (req : Request) : Cols e → Prop :=
  match e with
  | EQUIPMENT => λ c,
      ∃ type name status text d,
        form req !! "type" = Some type ∧ form req !! "name" = Some name
        ∧ form req !! "status" = Some status
        ∧ form req !! "lastmaintenancedate" = Some text
        ∧ optional_date text = Ok d
        ∧ c = Equipment.mk (Some type) (Some name) (Some status) d
  | EVENT => λ c,
      ∃ name description,
        form req !! "name" = Some name
        ∧ form req !! "description" = Some description
        ∧ c = TOROEvent.mk (Some name) (Some description)
  | PLAN => λ c,
      ∃ equipmentid eventid periodicity q v,
        form req !! "equipmentid" = Some equipmentid
        ∧ form req !! "eventid" = Some eventid
        ∧ form req !! "periodicity" = Some periodicity
        ∧ integer_in equipmentid = Ok q ∧ integer_in eventid = Ok v
        ∧ c = MaintenancePlan.mk (Some q) (Some v) (Some periodicity)
  | ASSET => λ c,
      ∃ materialname price cents,
        form req !! "materialname" = Some materialname
        ∧ form req !! "price" = Some price
        ∧ numeric_10_2_in price = Ok cents
        ∧ (∀ q, decimal_in price = Some q → (scale q ≤ 2)%nat →
                cents * 10 ^ Z.of_nat (scale q) = mantissa q * 100)
        ∧ c = MaterialAsset.mk (Some materialname) (Some cents)
  | NEED => λ c,
      ∃ maintenanceplanid materialassetid quantity p a n,
        form req !! "maintenanceplanid" = Some maintenanceplanid
        ∧ form req !! "materialassetid" = Some materialassetid
        ∧ form req !! "quantity" = Some quantity
        ∧ integer_in maintenanceplanid = Ok p
        ∧ integer_in materialassetid = Ok a
        ∧ integer_in quantity = Ok n
        ∧ c = Need.mk (Some p) (Some a) (Some n)
  | COMPLETED => λ c,
      ∃ maintenanceplanid text p d,
        form req !! "maintenanceplanid" = Some maintenanceplanid
        ∧ form req !! "completion_date" = Some text
        ∧ integer_in maintenanceplanid = Ok p
        ∧ strptime_Ymd text = Ok d
        ∧ c = CompletedWork.mk (Some p) (Some d)
  end.

Definition set_table (e : Entity) : Table (Cols e) → Store → Store :=
  match e with
  | EQUIPMENT => set_equipment
  | EVENT => set_toro_event
  | PLAN => set_maintenance_plan
  | ASSET => set_material_assets
  | NEED => set_needs
  | COMPLETED => set_completed_work
  end.

(** What the create and the edit route of an entity do alike on a
    [POST], between entering the branch and the [INSERT] or [UPDATE]:
    read the form, parse the date, and have the engine convert and check
    the values. *)
Definition bound_values (e : Entity) (req : Request) (st : Store)
    : Result (Cols e) :=
  match e return Result (Cols e) with
  | EQUIPMENT =>
      type ← request_form req "type";
      name ← request_form req "name";
      status ← request_form req "status";
      text ← request_form req "lastmaintenancedate";
      lastmaintenancedate ← optional_date text;
      equipment_values type name status lastmaintenancedate
  | EVENT =>
      name ← request_form req "name";
      description ← request_form req "description";
      toro_event_values name description
  | PLAN =>
      equipmentid ← request_form req "equipmentid";
      eventid ← request_form req "eventid";
      periodicity ← request_form req "periodicity";
      maintenance_plan_values equipmentid eventid periodicity st
  | ASSET =>
      materialname ← request_form req "materialname";
      price ← request_form req "price";
      material_assets_values materialname price
  | NEED =>
      maintenanceplanid ← request_form req "maintenanceplanid";
      materialassetid ← request_form req "materialassetid";
      quantity ← request_form req "quantity";
      needs_values maintenanceplanid materialassetid quantity st
  | COMPLETED =>
      maintenanceplanid ← request_form req "maintenanceplanid";
      text ← request_form req "completion_date";
      completion_date ← strptime_Ymd text;
      completed_work_values maintenanceplanid completion_date st
  end.

(** The foreign keys of columns [c] of entity [e] resolve in [st]. *)
Definition row_resolves (e : Entity) (st : Store) : Cols e → Prop :=
  match e with
  | PLAN => λ c,
      fk_resolves (equipment st) (MaintenancePlan.equipmentid c)
      ∧ fk_resolves (toro_event st) (MaintenancePlan.eventid c)
  | NEED => λ c,
      fk_resolves (maintenance_plan st) (Need.maintenanceplanid c)
      ∧ fk_resolves (material_assets st) (Need.materialassetid c)
  | COMPLETED => λ c,
      fk_resolves (maintenance_plan st) (CompletedWork.maintenanceplanid c)
  | _ => λ _, True
  end.

(** ** Cascades *)

(** The foreign key of a plan towards an owning entity. *)
Definition owner_reference (e : Entity) (c : MaintenancePlan.t) : option Z :=
  match e with
  | EQUIPMENT => MaintenancePlan.equipmentid c
  | EVENT => MaintenancePlan.eventid c
  | _ => None
  end.

(** The plans that reference the row [id] of an owning entity. *)
Definition dependent_plans (e : Entity) (st : Store) (id : Z)
    : list (Row MaintenancePlan.t) :=
  filter (λ p, owner_reference e (cols p) = Some id)
         (rows (maintenance_plan st)).

(** The store after the session deleted the plans that satisfy [Q]. *)
Definition without_plans (Q : Row MaintenancePlan.t → Prop)
    `{!∀ r, Decision (Q r)} (st : Store) : Store :=
  let ks := row_id <$> filter Q (rows (maintenance_plan st)) in
  mkStore (equipment st) (toro_event st) (DELETE Q (maintenance_plan st))
    (material_assets st)
    (DELETE (λ n, fk_in ks (Need.maintenanceplanid (cols n))) (needs st))
    (DELETE (λ w, fk_in ks (CompletedWork.maintenanceplanid (cols w)))
            (completed_work st)).

(** The tables that no plan, need or completed work owns are the same in
    both stores. *)
Definition owners_unchanged (st st' : Store) : Prop :=
  equipment st' = equipment st ∧ toro_event st' = toro_event st
  ∧ material_assets st' = material_assets st.

(** ** Forms and dates *)

Definition form_template (e : Entity) : string :=
  match e with
  | EQUIPMENT => "equipment_form.html"
  | EVENT => "events_form.html"
  | PLAN => "plans_form.html"
  | ASSET => "assets_form.html"
  | NEED => "needs_form.html"
  | COMPLETED => "completed_form.html"
  end.

(** What the form template of an entity is rendered with: the row to
    edit, if any, and the rows that the form offers for its references. *)
Definition form_context (e : Entity) (st : Store)
    : option (Row (Cols e)) → FormContext e :=
  match e with
  | EQUIPMENT => λ o, o
  | EVENT => λ o, o
  | PLAN => λ o, (o, query_all (equipment st), query_all (toro_event st))
  | ASSET => λ o, o
  | NEED => λ o, (o, query_all (maintenance_plan st),
                  query_all (material_assets st))
  | COMPLETED => λ o, (o, query_all (maintenance_plan st))
  end.


(** A date of the calendar, as [datetime.date] holds it. *)
Definition valid_date (d : date) : Prop :=
  1 ≤ year d ≤ 9999 ∧ 1 ≤ month d ≤ 12
  ∧ 1 ≤ day d ≤ days_in_month (year d) (month d).

(** Every date in the store is a date of the calendar. *)
Definition dates_valid (st : Store) : Prop :=
  Forall (λ r, ∀ d, Equipment.lastmaintenancedate (cols r) = Some d →
                    valid_date d) (rows (equipment st))
  ∧ Forall (λ r, ∀ d, CompletedWork.completion_date (cols r) = Some d →
                      valid_date d) (rows (completed_work st)).

(** The dates among columns [c] of entity [e] are dates of the
    calendar. *)
Definition cols_dates_valid (e : Entity) : Cols e → Prop :=
  match e with
  | EQUIPMENT => λ c,
      ∀ d, Equipment.lastmaintenancedate c = Some d → valid_date d
  | COMPLETED => λ c,
      ∀ d, CompletedWork.completion_date c = Some d → valid_date d
  | _ => λ _, True
  end.

(** * Properties *)

#[local] Set Warnings "-clear-no-such-hyp".

(** Closed decidable statements are settled by evaluation. *)
Ltac by_evaluation := apply (bool_decide_unpack _); vm_compute; exact I.

(** ** The conversions and the scenario, evaluated *)

Example strptime_ok : strptime_Ymd "2024-02-29" = Ok (mkdate 2024 2 29).
Proof. reflexivity. Qed.

Example strptime_short : strptime_Ymd "2024-3-7" = Ok (mkdate 2024 3 7).
Proof. reflexivity. Qed.

Example strptime_bad_day : strptime_Ymd "2023-02-29" = Raise ValueError.
Proof. reflexivity. Qed.

Example strptime_bad_text : strptime_Ymd "tomorrow" = Raise ValueError.
Proof. reflexivity. Qed.

Example strptime_empty : strptime_Ymd "" = Raise ValueError.
Proof. reflexivity. Qed.

Example integer_in_neg : integer_in "-5" = Ok (-5).
Proof. reflexivity. Qed.

Example integer_in_text : integer_in "many" = Raise DataError.
Proof. reflexivity. Qed.

Example integer_in_empty : integer_in "" = Raise DataError.
Proof. reflexivity. Qed.

Example numeric_in_two : numeric_10_2_in "12.50" = Ok 1250.
Proof. reflexivity. Qed.

Example numeric_in_int : numeric_10_2_in "7" = Ok 700.
Proof. reflexivity. Qed.

Example numeric_in_round : numeric_10_2_in "-1.005" = Ok (-101).
Proof. reflexivity. Qed.

Example numeric_in_bad : numeric_10_2_in "1.2.3" = Raise DataError.
Proof. reflexivity. Qed.

Example scenario_by_routes :
  let s1 := (serve (create_equipment (POST_form
               [("type", "Mower"); ("name", "M1"); ("status", "active");
                ("lastmaintenancedate", "")])) empty_store).2 in
  let s2 := (serve (create_event (POST_form
               [("name", "Blade sharpening"); ("description", "...")])) s1).2 in
  let s3 := (serve (create_plan (POST_form
               [("equipmentid", "1"); ("eventid", "1");
                ("periodicity", "monthly")])) s2).2 in
  let s4 := (serve (create_asset (POST_form
               [("materialname", "Whetstone"); ("price", "12.50")])) s3).2 in
  let s5 := (serve (create_need (POST_form
               [("maintenanceplanid", "1"); ("materialassetid", "1");
                ("quantity", "2")])) s4).2 in
  s5 = scenario.
Proof. vm_compute. reflexivity. Qed.

Example scenario_consistent : consistent scenario.
Proof. apply (bool_decide_unpack _). vm_compute. exact I. Qed.

(** The scenario's last step: deleting the mower takes the plan and its
    need with it, the event and the asset stay. *)
Example scenario_delete_equipment :
  serve (delete_equipment 1) scenario
  = (Ok (redirect "list_equipment"),
     mkStore (mkTable [] 2) (toro_event scenario) (mkTable [] 2)
             (material_assets scenario) (mkTable [] 2) (mkTable [] 1)).
Proof. vm_compute. reflexivity. Qed.

(** ** Tables and keys *)

Section TableFacts.
Context {C : Type}.
Implicit Types (t : Table C) (r : Row C) (i : Z).

Lemma query_get_Some t i r :
  query_get t i = Some r → row_id r = i ∧ r ∈ rows t.
Proof.
  unfold query_get. intros H. apply head_Some_elem_of in H.
  apply list_elem_of_filter in H. done.
Qed.

Lemma query_get_None t i : query_get t i = None ↔ i ∉ pks t.
Proof.
  unfold query_get, pks. rewrite head_None. split.
  - intros H Hin. apply list_elem_of_fmap in Hin as (r & -> & Hr).
    by apply (filter_nil_not_elem_of _ _ r H).
  - intros H. destruct (filter _ _) as [|r l] eqn:E; [done|].
    assert (r ∈ filter (λ r, row_id r = i) (rows t)) as Hr by (rewrite E; left).
    apply list_elem_of_filter in Hr as [<- Hr].
    destruct H. apply list_elem_of_fmap. eauto.
Qed.

Lemma query_get_is_Some t i : is_Some (query_get t i) ↔ i ∈ pks t.
Proof.
  rewrite <- not_eq_None_Some, query_get_None.
  split; [apply dec_stable | auto].
Qed.

Lemma get_or_404_NotFound t i : i ∉ pks t → get_or_404 t i = Raise NotFound.
Proof. intros H. unfold get_or_404. apply query_get_None in H. by rewrite H. Qed.

Lemma get_or_404_found t i :
  i ∈ pks t → ∃ r, get_or_404 t i = Ok r ∧ row_id r = i ∧ r ∈ rows t.
Proof.
  intros H. apply query_get_is_Some in H as [r Hr]. exists r.
  unfold get_or_404. rewrite Hr. split; [done|]. by apply query_get_Some.
Qed.

Lemma elem_of_pks_DELETE (P : Row C → Prop) `{!∀ r, Decision (P r)} t i :
  i ∈ pks (DELETE P t) ↔ ∃ r, r ∈ rows t ∧ row_id r = i ∧ ¬ P r.
Proof.
  unfold pks, DELETE. simpl. rewrite list_elem_of_fmap. split.
  - intros (r & -> & Hr). apply list_elem_of_filter in Hr as [HP Hr]. eauto.
  - intros (r & Hr & <- & HP). exists r. split; [done|].
    apply list_elem_of_filter. done.
Qed.

Lemma not_elem_of_pks_DELETE_pk (ks : list Z) t i :
  i ∈ ks → i ∉ pks (DELETE (λ r, row_id r ∈ ks) t).
Proof. intros Hi H. apply elem_of_pks_DELETE in H as (r & _ & <- & Hr). done. Qed.
End TableFacts.

Section ListFacts.
Context {A : Type}.
Implicit Types (l : list A).

Lemma filter_ext_in (P Q : A → Prop) `{HPdec : !∀ x, Decision (P x)}
    `{HQdec : !∀ x, Decision (Q x)} l :
  (∀ x, x ∈ l → P x ↔ Q x) → filter P l = filter Q l.
Proof.
  induction l as [|a l IH]; intros H; [done|].
  rewrite !filter_cons.
  assert (P a ↔ Q a) as Ha by (apply H; left).
  rewrite IH by (intros x Hx; apply H; by right).
  destruct (decide (P a)), (decide (Q a)); tauto.
Qed.

Lemma filter_none (P : A → Prop) `{HPdec : !∀ x, Decision (P x)} l :
  (∀ x, x ∈ l → ¬ P x) → filter P l = [].
Proof.
  induction l as [|a l IH]; intros H; [done|].
  rewrite filter_cons, IH by (intros x Hx; apply H; by right).
  destruct (decide (P a)) as [Ha|]; [|done]. destruct (H a); [left | done].
Qed.

Lemma filter_all (P : A → Prop) `{HPdec : !∀ x, Decision (P x)} l :
  (∀ x, x ∈ l → P x) → filter P l = l.
Proof.
  induction l as [|a l IH]; intros H; [done|].
  rewrite filter_cons, IH by (intros x Hx; apply H; by right).
  destruct (decide (P a)) as [|Ha]; [done|]. destruct Ha. apply H. left.
Qed.

Lemma length_filter_split (P : A → Prop) `{HPdec : !∀ x, Decision (P x)} l :
  length l = (length (filter P l) + length (filter (λ x, ¬ P x) l))%nat.
Proof.
  induction l as [|a l IH]; [done|].
  rewrite !filter_cons. destruct (decide (P a)), (decide (¬ P a)); simpl; try tauto; lia.
Qed.

End ListFacts.

Section KeyFacts.
Context {C : Type}.
Implicit Types (t : Table C) (r : Row C) (l : list (Row C)).

Lemma NoDup_pk_inj l r1 r2 :
  NoDup (row_id <$> l) → r1 ∈ l → r2 ∈ l → row_id r1 = row_id r2 → r1 = r2.
Proof.
  induction l as [|a l IH]; [by intros _ ?%elem_of_nil|].
  rewrite fmap_cons, NoDup_cons. intros [Ha Hl] H1 H2 E.
  apply elem_of_cons in H1 as [->|H1], H2 as [->|H2]; auto.
  - destruct Ha. rewrite E. apply list_elem_of_fmap; eauto.
  - destruct Ha. rewrite <- E. apply list_elem_of_fmap; eauto.
Qed.

Lemma pk_elem_of_filter (Q : Row C → Prop) `{HQdec : !∀ r, Decision (Q r)} l r :
  NoDup (row_id <$> l) → r ∈ l → row_id r ∈ row_id <$> filter Q l ↔ Q r.
Proof.
  intros Hl Hr. rewrite list_elem_of_fmap. split.
  - intros (r' & E & [HQ Hr']%list_elem_of_filter).
    by rewrite (NoDup_pk_inj l r r' Hl Hr Hr' E).
  - intros HQ. exists r. split; [done|]. by apply list_elem_of_filter.
Qed.

Lemma NoDup_pks_filter (P : Row C → Prop) `{HPdec : !∀ r, Decision (P r)} l :
  NoDup (row_id <$> l) → NoDup (row_id <$> filter P l).
Proof.
  intros H. eapply sublist_NoDup; [exact H|].
  apply fmap_sublist, sublist_filter.
Qed.

Lemma NoDup_pks_DELETE (P : Row C → Prop) `{HPdec : !∀ r, Decision (P r)} t :
  NoDup (pks t) → NoDup (pks (DELETE P t)).
Proof. apply NoDup_pks_filter. Qed.

Lemma DELETE_ext (P Q : Row C → Prop) `{HPdec : !∀ r, Decision (P r)}
    `{HQdec : !∀ r, Decision (Q r)} t :
  (∀ r, r ∈ rows t → P r ↔ Q r) → DELETE P t = DELETE Q t.
Proof.
  intros H. unfold DELETE. f_equal. apply filter_ext_in.
  intros r Hr. by rewrite (H r Hr).
Qed.

Lemma DELETE_nothing (P : Row C → Prop) `{HPdec : !∀ r, Decision (P r)} t :
  (∀ r, r ∈ rows t → ¬ P r) → DELETE P t = t.
Proof.
  intros H. destruct t as [l n]. unfold DELETE. simpl in *. f_equal.
  by apply filter_all.
Qed.

Lemma DELETE_DELETE (P Q : Row C → Prop) `{HPdec : !∀ r, Decision (P r)}
    `{HQdec : !∀ r, Decision (Q r)} t :
  (∀ r, r ∈ rows t → P r → Q r) → DELETE P (DELETE Q t) = DELETE Q t.
Proof.
  intros H. apply DELETE_nothing. intros r Hr HP.
  unfold DELETE in Hr. simpl in Hr. apply list_elem_of_filter in Hr as [HQ Hr].
  eauto.
Qed.

Lemma query_get_filter t i r :
  NoDup (pks t) → query_get t i = Some r →
  filter (λ r, row_id r = i) (rows t) = [r].
Proof.
  unfold query_get, pks. intros Hnd H.
  destruct (filter _ _) as [|a [|b l]] eqn:E; simpl in H; [done|congruence|].
  assert (a ∈ filter (λ r, row_id r = i) (rows t)) as Ha by (rewrite E; set_solver).
  assert (b ∈ filter (λ r, row_id r = i) (rows t)) as Hb by (rewrite E; set_solver).
  apply list_elem_of_filter in Ha as [Ha1 Ha2], Hb as [Hb1 Hb2].
  assert (a = b) as -> by (apply (NoDup_pk_inj (rows t)); congruence).
  apply (NoDup_pks_filter (λ r, row_id r = i)) in Hnd. rewrite E in Hnd.
  rewrite !fmap_cons in Hnd. apply NoDup_cons in Hnd as [Hnd _]. set_solver.
Qed.
End KeyFacts.

(** ** Requests *)

Lemma serve_raise {A} (h : Handler A) st e :
  h st = Raise e → serve h st = (Raise e, st).
Proof. unfold serve. by intros ->. Qed.

Lemma serve_failed {A} (h : Handler A) st e st' :
  serve h st = (Raise e, st') → st' = st.
Proof. unfold serve. destruct (h st) as [[r s]|]; congruence. Qed.

(** C4.  For each of the six entities and every identifier: when no row
    has the identifier, the delete route fails with [NotFound] (404) and
    the store is unchanged; when a row has it, the delete route succeeds
    and in the store it leaves no row has the identifier, so that
    [get_or_404], the lookup every edit route starts with, fails with
    [NotFound]. *)
Theorem delete_then_get_by_id (e : Entity) (st : Store) (id : Z) :
  (¬ has_row e st id → serve (delete_route e id) st = (Raise NotFound, st))
  ∧ (has_row e st id →
     ∃ st', serve (delete_route e id) st
            = (Ok (redirect (list_endpoint e)), st')
          ∧ ¬ has_row e st' id
          ∧ get_or_404 (table e st') id = Raise NotFound).
Proof.
  split.
  - intros H. apply serve_raise.
    destruct e; simpl in *; unfold has_row in H; simpl in H;
      unfold delete_equipment, delete_event, delete_plan, delete_asset,
        delete_need, delete_completed;
      by rewrite (get_or_404_NotFound _ _ H).
  - intros H.
    assert (∀ st', ¬ has_row e st' id → get_or_404 (table e st') id = Raise NotFound)
      as Hget by (intros; by apply get_or_404_NotFound).
    destruct e; unfold has_row in *; simpl in *;
      apply get_or_404_found in H as (r & Hr & <- & _);
      unfold delete_equipment, delete_event, delete_plan, delete_asset,
        delete_need, delete_completed, serve; rewrite Hr; simpl;
      (eexists; split; [reflexivity|]);
      (split; [|apply Hget]); apply not_elem_of_pks_DELETE_pk; set_solver.
Qed.

Lemma delete_then_get_by_id_witness :
  serve (delete_route NEED 7) scenario = (Raise NotFound, scenario)
  ∧ ∃ st', serve (delete_route NEED 1) scenario
           = (Ok (redirect "list_needs"), st')
         ∧ get_or_404 (needs st') 1 = Raise NotFound.
Proof.
  split.
  - apply (proj1 (delete_then_get_by_id NEED scenario 7)). by_evaluation.
  - destruct (proj2 (delete_then_get_by_id NEED scenario 1)) as (st' & H1 & _ & H2).
    + by_evaluation.
    + exists st'. split; [exact H1 | exact H2].
Defined.

(** C7.  For each of the six entities, every request and every identifier
    that no row of the entity's table has, the edit route fails with
    [NotFound] (404) and leaves the whole store as it was. *)
Theorem edit_absent_row (e : Entity) (req : Request) (st : Store) (id : Z) :
  ¬ has_row e st id → serve (edit_route e req id) st = (Raise NotFound, st).
Proof.
  intros H. apply serve_raise.
  destruct e; unfold has_row in H; simpl in *;
    unfold edit_equipment, edit_event, edit_plan, edit_asset, edit_need,
      edit_completed;
    by rewrite (get_or_404_NotFound _ _ H).
Qed.

Lemma edit_absent_row_witness :
  serve (edit_route ASSET (POST_form [("materialname", "Oil"); ("price", "3")]) 5)
        scenario
  = (Raise NotFound, scenario).
Proof. apply edit_absent_row. by_evaluation. Defined.

(** ** Cascading deletes *)

Lemma fk_in_elem_of ks fk : fk_in ks fk ↔ ∃ k, fk = Some k ∧ k ∈ ks.
Proof. destruct fk; simpl; naive_solver. Qed.

Lemma fk_in_singleton k fk : fk_in [k] fk ↔ fk = Some k.
Proof. rewrite fk_in_elem_of. set_solver. Qed.

Lemma fk_in_nil fk : ¬ fk_in [] fk.
Proof. rewrite fk_in_elem_of. set_solver. Qed.

Lemma DELETE_selected {C} (Q : Row C → Prop) `{HQdec : !∀ r, Decision (Q r)}
    (t : Table C) :
  NoDup (pks t) →
  DELETE (λ r, row_id r ∈ row_id <$> filter Q (rows t)) t = DELETE Q t.
Proof. intros Hnd. apply DELETE_ext. intros r Hr. by apply pk_elem_of_filter. Qed.

Lemma selected_pks {C} (Q : Row C → Prop) `{HQdec : !∀ r, Decision (Q r)}
    (t : Table C) :
  NoDup (pks t) →
  filter (λ r, row_id r ∈ row_id <$> filter Q (rows t)) (rows t)
  = filter Q (rows t).
Proof. intros Hnd. apply filter_ext_in. intros r Hr. by apply pk_elem_of_filter. Qed.

(** The members of the [needs] collections of the plans [ps] are the
    needs that reference one of [ps]. *)
Lemma needs_of_plans st (ps : list (Row MaintenancePlan.t)) (n : Row Need.t) :
  NoDup (pks (needs st)) → n ∈ rows (needs st) →
  row_id n ∈ row_id <$> (ps ≫= MaintenancePlan_needs st)
  ↔ fk_in (row_id <$> ps) (Need.maintenanceplanid (cols n)).
Proof.
  intros Hnd Hn. rewrite fk_in_elem_of, list_elem_of_fmap. split.
  - intros (n' & E & Hn'). apply list_elem_of_bind in Hn' as (p & Hn' & Hp).
    apply list_elem_of_filter in Hn' as [Hfk Hn'].
    rewrite (NoDup_pk_inj _ n n' Hnd Hn Hn' E).
    exists (row_id p). split; [done|]. apply list_elem_of_fmap; eauto.
  - intros (k & Hfk & Hk). apply list_elem_of_fmap in Hk as (p & -> & Hp).
    exists n. split; [done|]. apply list_elem_of_bind. exists p. split; [|done].
    by apply list_elem_of_filter.
Qed.

Lemma works_of_plans st (ps : list (Row MaintenancePlan.t))
    (w : Row CompletedWork.t) :
  NoDup (pks (completed_work st)) → w ∈ rows (completed_work st) →
  row_id w ∈ row_id <$> (ps ≫= MaintenancePlan_completed_works st)
  ↔ fk_in (row_id <$> ps) (CompletedWork.maintenanceplanid (cols w)).
Proof.
  intros Hnd Hw. rewrite fk_in_elem_of, list_elem_of_fmap. split.
  - intros (w' & E & Hw'). apply list_elem_of_bind in Hw' as (p & Hw' & Hp).
    apply list_elem_of_filter in Hw' as [Hfk Hw'].
    rewrite (NoDup_pk_inj _ w w' Hnd Hw Hw' E).
    exists (row_id p). split; [done|]. apply list_elem_of_fmap; eauto.
  - intros (k & Hfk & Hk). apply list_elem_of_fmap in Hk as (p & -> & Hp).
    exists w. split; [done|]. apply list_elem_of_bind. exists p. split; [|done].
    by apply list_elem_of_filter.
Qed.

Lemma session_delete_plans_selected (Q : Row MaintenancePlan.t → Prop)
    `{HQdec : !∀ r, Decision (Q r)} (st : Store) :
  primary_keys st →
  session_delete_plans (filter Q (rows (maintenance_plan st))) st
  = without_plans Q st.
Proof.
  intros (_ & _ & Hp & _ & Hn & Hw).
  unfold session_delete_plans, DELETE_maintenance_plan,
    DELETE_maintenance_plan_where, DELETE_completed_work, DELETE_needs,
    without_plans, set_maintenance_plan, set_needs, set_completed_work.
  simpl. rewrite (selected_pks Q _ Hp). f_equal.
  - by apply DELETE_selected.
  - rewrite (DELETE_ext _ (λ n, fk_in (row_id <$> filter Q (rows (maintenance_plan st)))
                               (Need.maintenanceplanid (cols n))) (needs st))
      by (intros n Hn'; by apply needs_of_plans).
    by apply DELETE_DELETE.
  - rewrite (DELETE_ext _ (λ w, fk_in (row_id <$> filter Q (rows (maintenance_plan st)))
                               (CompletedWork.maintenanceplanid (cols w)))
                        (completed_work st))
      by (intros w Hw'; by apply works_of_plans).
    by apply DELETE_DELETE.
Qed.

Lemma DELETE_maintenance_plan_where_nothing (P : Row MaintenancePlan.t → Prop)
    `{HPdec : !∀ r, Decision (P r)} (st : Store) :
  (∀ p, p ∈ rows (maintenance_plan st) → ¬ P p) →
  DELETE_maintenance_plan_where P st = st.
Proof.
  intros H. unfold DELETE_maintenance_plan_where.
  rewrite (filter_none P _ H). simpl.
  rewrite !DELETE_nothing; [by destruct st|auto..]; intros r _; apply fk_in_nil.
Qed.

Lemma rows_without_plans (Q : Row MaintenancePlan.t → Prop)
    `{HQdec : !∀ r, Decision (Q r)} (st : Store) p :
  p ∈ rows (maintenance_plan (without_plans Q st)) → ¬ Q p.
Proof. simpl. by intros [? _]%list_elem_of_filter. Qed.

Lemma length_DELETE {C} (P : Row C → Prop) `{HPdec : !∀ r, Decision (P r)}
    (t : Table C) :
  length (rows t) = (length (rows (DELETE P t)) + length (filter P (rows t)))%nat.
Proof. simpl. rewrite (length_filter_split P (rows t)). lia. Qed.

Lemma length_DELETE_pk {C} (t : Table C) (i : Z) :
  NoDup (pks t) → i ∈ pks t →
  length (rows t) = S (length (rows (DELETE (λ r, row_id r ∈ [i]) t))).
Proof.
  intros Hnd Hi. apply query_get_is_Some in Hi as [r Hr].
  rewrite (length_DELETE (λ r, row_id r ∈ [i])).
  rewrite (filter_ext_in _ (λ r, row_id r = i)) by (intros; set_solver).
  rewrite (query_get_filter _ _ _ Hnd Hr). simpl. lia.
Qed.


Lemma pks_resolve_after_DELETE {C} (P : Row C → Prop)
    `{HPdec : !∀ r, Decision (P r)} (t : Table C) (fk : option Z) :
  fk_resolves t fk →
  (∀ r, r ∈ rows t → fk = Some (row_id r) → ¬ P r) →
  fk_resolves (DELETE P t) fk.
Proof.
  destruct fk as [k|]; [|done]. simpl. intros Hk H.
  apply list_elem_of_fmap in Hk as (r & -> & Hr).
  apply elem_of_pks_DELETE. exists r. auto.
Qed.

(** Deleting plans with their needs and completed work leaves the foreign
    keys of the remaining needs and completed work resolved. *)
Lemma without_plans_children (Q : Row MaintenancePlan.t → Prop)
    `{HQdec : !∀ r, Decision (Q r)} (st : Store) :
  foreign_keys st →
  let st' := without_plans Q st in
  Forall (λ n, fk_resolves (maintenance_plan st')
                           (Need.maintenanceplanid (cols n))
               ∧ fk_resolves (material_assets st')
                             (Need.materialassetid (cols n)))
         (rows (needs st'))
  ∧ Forall (λ w, fk_resolves (maintenance_plan st')
                             (CompletedWork.maintenanceplanid (cols w)))
           (rows (completed_work st')).
Proof.
  intros (_ & Hn & Hw). simpl. split; apply Forall_forall.
  - intros n [Hfk Hn']%list_elem_of_filter.
    rewrite Forall_forall in Hn. destruct (Hn n Hn') as [H1 H2].
    split; [|done]. apply pks_resolve_after_DELETE; [done|].
    intros p Hp E HQ. apply Hfk. rewrite E. simpl.
    apply list_elem_of_fmap. exists p. split; [done|].
    by apply list_elem_of_filter.
  - intros w [Hfk Hw']%list_elem_of_filter.
    rewrite Forall_forall in Hw. specialize (Hw w Hw').
    apply pks_resolve_after_DELETE; [done|].
    intros p Hp E HQ. apply Hfk. rewrite E. simpl.
    apply list_elem_of_fmap. exists p. split; [done|].
    by apply list_elem_of_filter.
Qed.

Lemma without_plans_primary_keys (Q : Row MaintenancePlan.t → Prop)
    `{HQdec : !∀ r, Decision (Q r)} (st : Store) :
  primary_keys st → primary_keys (without_plans Q st).
Proof.
  intros (? & ? & ? & ? & ? & ?). unfold primary_keys. simpl.
  repeat split; try done; by apply NoDup_pks_filter.
Qed.

Lemma DELETE_equipment_no_dependents (ks : list Z) (st : Store) :
  (∀ p, p ∈ rows (maintenance_plan st) →
        ¬ fk_in ks (MaintenancePlan.equipmentid (cols p))) →
  DELETE_equipment ks st
  = set_equipment (DELETE (λ r, row_id r ∈ ks) (equipment st)) st.
Proof.
  intros H. unfold DELETE_equipment.
  by rewrite DELETE_maintenance_plan_where_nothing.
Qed.

Lemma DELETE_toro_event_no_dependents (ks : list Z) (st : Store) :
  (∀ p, p ∈ rows (maintenance_plan st) →
        ¬ fk_in ks (MaintenancePlan.eventid (cols p))) →
  DELETE_toro_event ks st
  = set_toro_event (DELETE (λ r, row_id r ∈ ks) (toro_event st)) st.
Proof.
  intros H. unfold DELETE_toro_event.
  by rewrite DELETE_maintenance_plan_where_nothing.
Qed.

Lemma session_delete_equipment_store st (r : Row Equipment.t) :
  primary_keys st →
  session_delete_equipment r st
  = set_equipment (DELETE (λ x, row_id x ∈ [row_id r]) (equipment st))
      (without_plans
         (λ p, MaintenancePlan.equipmentid (cols p) = Some (row_id r)) st).
Proof.
  intros Hpk. unfold session_delete_equipment, Equipment_maintenance_plans.
  rewrite session_delete_plans_selected by done.
  rewrite DELETE_equipment_no_dependents; [reflexivity|].
  intros p Hp Hin. apply rows_without_plans in Hp.
  by apply fk_in_singleton in Hin.
Qed.

Lemma session_delete_event_store st (r : Row TOROEvent.t) :
  primary_keys st →
  session_delete_event r st
  = set_toro_event (DELETE (λ x, row_id x ∈ [row_id r]) (toro_event st))
      (without_plans
         (λ p, MaintenancePlan.eventid (cols p) = Some (row_id r)) st).
Proof.
  intros Hpk. unfold session_delete_event, TOROEvent_maintenance_plans.
  rewrite session_delete_plans_selected by done.
  rewrite DELETE_toro_event_no_dependents; [reflexivity|].
  intros p Hp Hin. apply rows_without_plans in Hp.
  by apply fk_in_singleton in Hin.
Qed.

Lemma delete_owner_store (e : Entity) (st : Store) (id : Z) :
  e = EQUIPMENT ∨ e = EVENT → primary_keys st → has_row e st id →
  ∃ st',
    serve (delete_route e id) st = (Ok (redirect (list_endpoint e)), st')
    ∧ table e st' = DELETE (λ x, row_id x ∈ [id]) (table e st)
    ∧ (∀ e', e' = EQUIPMENT ∨ e' = EVENT → e' ≠ e → table e' st' = table e' st)
    ∧ material_assets st' = material_assets st
    ∧ maintenance_plan st'
      = DELETE (λ p, owner_reference e (cols p) = Some id) (maintenance_plan st)
    ∧ needs st'
      = DELETE (λ n, fk_in (row_id <$> dependent_plans e st id)
                           (Need.maintenanceplanid (cols n))) (needs st)
    ∧ completed_work st'
      = DELETE (λ w, fk_in (row_id <$> dependent_plans e st id)
                           (CompletedWork.maintenanceplanid (cols w)))
               (completed_work st).
Proof.
  intros [-> | ->] Hpk Hrow; unfold has_row in Hrow; simpl in *;
    apply get_or_404_found in Hrow as (r & Hr & <- & _);
    unfold delete_equipment, delete_event, serve; rewrite Hr; simpl;
    (eexists; split; [reflexivity|]).
  - rewrite session_delete_equipment_store by done. simpl.
    repeat split; try done. intros e' [-> | ->] ?; done.
  - rewrite session_delete_event_store by done. simpl.
    repeat split; try done. intros e' [-> | ->] ?; done.
Qed.

(** Deleting a row of an owning entity keeps the store consistent. *)
Lemma delete_owner_consistent (e : Entity) (st : Store) (id : Z) :
  e = EQUIPMENT ∨ e = EVENT → consistent st →
  consistent (serve (delete_route e id) st).2.
Proof.
  intros He [Hpk Hfk]. destruct (decide (has_row e st id)) as [Hrow|Hrow].
  2:{ unfold serve, has_row in *.
      destruct He as [-> | ->]; simpl in *;
        unfold delete_equipment, delete_event;
        by rewrite (get_or_404_NotFound _ _ Hrow). }
  destruct (delete_owner_store e st id He Hpk Hrow)
    as (st' & -> & Htab & Hother & Hassets & Hplans & Hneeds & Hworks).
  simpl.
  pose proof (without_plans_primary_keys
                (λ p, owner_reference e (cols p) = Some id) st Hpk) as Hpk'.
  pose proof (without_plans_children
                (λ p, owner_reference e (cols p) = Some id) st Hfk)
    as [Hn' Hw'].
  destruct Hfk as (Hp & _ & _). rewrite Forall_forall in Hp.
  destruct Hpk' as (Hq' & Hv' & Hp' & Ha' & Hnn' & Hww').
  destruct He as [-> | ->]; simpl in *.
  - assert (toro_event st' = toro_event st) as Hev
      by (by apply (Hother EVENT); auto).
    destruct st' as [q v p a n w]; simpl in *; subst.
    split; [repeat split; try done; by apply NoDup_pks_DELETE|].
    split; [|by split]. apply Forall_forall.
    intros p [HQ Hin]%list_elem_of_filter. destruct (Hp p Hin) as [H1 H2].
    split; [|done]. apply pks_resolve_after_DELETE; [done|].
    intros r _ E Hr. apply HQ. rewrite E. f_equal. set_solver.
  - assert (equipment st' = equipment st) as Heq
      by (by apply (Hother EQUIPMENT); auto).
    destruct st' as [q v p a n w]; simpl in *; subst.
    split; [repeat split; try done; by apply NoDup_pks_DELETE|].
    split; [|by split]. apply Forall_forall.
    intros p [HQ Hin]%list_elem_of_filter. destruct (Hp p Hin) as [H1 H2].
    split; [done|]. apply pks_resolve_after_DELETE; [done|].
    intros r _ E Hr. apply HQ. rewrite E. f_equal. set_solver.
Qed.



(** ** Deletes below the owners *)

Lemma delete_plan_store (st : Store) (id : Z) :
  primary_keys st → has_row PLAN st id →
  serve (delete_plan id) st
  = (Ok (redirect "list_plans"), without_plans (λ p, row_id p = id) st).
Proof.
  intros Hpk Hrow. unfold has_row in Hrow. simpl in Hrow.
  apply query_get_is_Some in Hrow as [r Hr].
  unfold delete_plan, serve, get_or_404. rewrite Hr. simpl.
  unfold session_delete_plan.
  rewrite <- (query_get_filter _ _ _ (proj1 (proj2 (proj2 Hpk))) Hr).
  by rewrite session_delete_plans_selected.
Qed.

(** C10.  Deleting a plan, a need or a completed work leaves the
    [equipment], [toro_event] and [material_assets] tables exactly as they
    were, whether the route succeeds or not.  Deleting a plan removes the
    plan and the needs and completed works that reference it, and no
    other row of those tables; deleting a need or a completed work removes
    that single row and leaves every other table as it was. *)
Theorem cascades_go_downward (st : Store) (id : Z) :
  (∀ e, e = PLAN ∨ e = NEED ∨ e = COMPLETED →
        owners_unchanged st (serve (delete_route e id) st).2)
  ∧ (primary_keys st → has_row PLAN st id →
     ∃ st', serve (delete_plan id) st = (Ok (redirect "list_plans"), st')
       ∧ (∀ p, p ∈ rows (maintenance_plan st')
               ↔ p ∈ rows (maintenance_plan st) ∧ row_id p ≠ id)
       ∧ (∀ n, n ∈ rows (needs st')
               ↔ n ∈ rows (needs st)
                 ∧ Need.maintenanceplanid (cols n) ≠ Some id)
       ∧ (∀ w, w ∈ rows (completed_work st')
               ↔ w ∈ rows (completed_work st)
                 ∧ CompletedWork.maintenanceplanid (cols w) ≠ Some id))
  ∧ (primary_keys st → has_row NEED st id →
     ∃ st', serve (delete_need id) st = (Ok (redirect "list_needs"), st')
       ∧ maintenance_plan st' = maintenance_plan st
       ∧ completed_work st' = completed_work st
       ∧ (∀ n, n ∈ rows (needs st') ↔ n ∈ rows (needs st) ∧ row_id n ≠ id)
       ∧ row_count st = S (row_count st'))
  ∧ (primary_keys st → has_row COMPLETED st id →
     ∃ st', serve (delete_completed id) st
            = (Ok (redirect "list_completed"), st')
       ∧ maintenance_plan st' = maintenance_plan st
       ∧ needs st' = needs st
       ∧ (∀ w, w ∈ rows (completed_work st')
               ↔ w ∈ rows (completed_work st) ∧ row_id w ≠ id)
       ∧ row_count st = S (row_count st')).
Proof.
  split; [|split; [|split]].
  - intros e He. unfold serve.
    destruct He as [-> | [-> | ->]]; simpl;
      unfold delete_plan, delete_need, delete_completed;
      match goal with |- context [get_or_404 ?t ?i] =>
        destruct (get_or_404 t i) end; done.
  - intros Hpk Hrow. eexists. split; [apply delete_plan_store; assumption|].
    unfold has_row in Hrow. simpl in Hrow.
    apply query_get_is_Some in Hrow as [r Hr].
    pose proof (query_get_filter _ _ _ (proj1 (proj2 (proj2 Hpk))) Hr) as E.
    destruct (query_get_Some _ _ _ Hr) as [<- _].
    simpl. rewrite E. simpl.
    split; [|split]; intros x; rewrite list_elem_of_filter;
      rewrite ?fk_in_singleton; tauto.
  - intros Hpk Hrow. unfold has_row in Hrow. simpl in Hrow.
    destruct (get_or_404_found _ _ Hrow) as (r & Hr & <- & _).
    unfold delete_need, serve. rewrite Hr. simpl.
    eexists. split; [reflexivity|]. simpl. split; [done|]. split; [done|].
    split.
    + intros n. rewrite list_elem_of_filter. set_solver.
    + unfold row_count. simpl.
      rewrite (length_DELETE_pk (needs st) (row_id r)); [simpl; lia| |done].
      apply Hpk.
  - intros Hpk Hrow. unfold has_row in Hrow. simpl in Hrow.
    destruct (get_or_404_found _ _ Hrow) as (r & Hr & <- & _).
    unfold delete_completed, serve. rewrite Hr. simpl.
    eexists. split; [reflexivity|]. simpl. split; [done|]. split; [done|].
    split.
    + intros n. rewrite list_elem_of_filter. set_solver.
    + unfold row_count. simpl.
      rewrite (length_DELETE_pk (completed_work st) (row_id r));
        [simpl; lia| |done].
      apply Hpk.
Qed.

Lemma cascades_go_downward_witness :
  owners_unchanged scenario (serve (delete_route PLAN 1) scenario).2
  ∧ ∃ st', serve (delete_plan 1) scenario = (Ok (redirect "list_plans"), st')
         ∧ rows (maintenance_plan st') = [] ∧ rows (needs st') = []
         ∧ rows (equipment st') = rows (equipment scenario).
Proof.
  destruct (cascades_go_downward scenario 1) as (H1 & H2 & _).
  split; [apply H1; by left|].
  destruct H2 as (st' & Hs & _); [by_evaluation | by_evaluation |].
  exists st'. split; [exact Hs|].
  vm_compute in Hs. inversion Hs. repeat split; reflexivity.
Defined.

(** *** Material assets *)

Lemma pks_UPDATE_in {C} (ks : list Z) (f : C → C) (t : Table C) :
  pks (UPDATE_in ks f t) = pks t.
Proof.
  unfold pks, UPDATE_in. simpl. rewrite <- list_fmap_compose.
  apply list_fmap_ext. intros i r _. simpl. by destruct (decide _).
Qed.

(** Whatever the store, deleting a material asset deletes no need: a need
    that referenced the asset stays, with [materialassetid] NULL. *)
Lemma session_delete_asset_needs (a : Row MaterialAsset.t) (st : Store) :
  needs (session_delete_asset a st)
  = UPDATE_in (row_id <$> MaterialAsset_needs st a)
      (λ c, Need.mk (Need.maintenanceplanid c) None (Need.quantity c))
      (needs st).
Proof.
  unfold session_delete_asset, DELETE_material_assets. simpl.
  apply DELETE_nothing. intros n Hn Hfk. simpl in Hn.
  apply list_elem_of_fmap in Hn as (r & -> & Hr).
  apply fk_in_singleton in Hfk.
  destruct (decide (row_id r ∈ _)) as [|Hout]; [done|].
  apply Hout, list_elem_of_fmap. exists r. split; [done|].
  by apply list_elem_of_filter.
Qed.

Lemma delete_asset_keeps_needs (st : Store) (id : Z) :
  has_row ASSET st id →
  ∃ st', serve (delete_asset id) st = (Ok (redirect "list_assets"), st')
    ∧ pks (needs st') = pks (needs st).
Proof.
  intros Hrow. unfold has_row in Hrow. simpl in Hrow.
  destruct (get_or_404_found _ _ Hrow) as (r & Hr & <- & _).
  unfold delete_asset, serve. rewrite Hr. simpl.
  eexists. split; [reflexivity|].
  by rewrite session_delete_asset_needs, pks_UPDATE_in.
Qed.

(** C3.  The code at the scenario of the specification: deleting the
    material asset succeeds and removes the asset, and the need that
    referenced it is still in the store, its [materialassetid] NULL. *)
Theorem delete_asset_scenario :
  ∃ st', serve (delete_asset 1) scenario = (Ok (redirect "list_assets"), st')
    ∧ rows (material_assets st') = []
    ∧ rows (needs st') = [mkRow 1 (Need.mk (Some 1) None (Some 2))].
Proof. eexists. split; [vm_compute; reflexivity|]. split; reflexivity. Qed.

(** *** Listing *)

(** C9, counterexample.  The list route of [Equipment] on a table that
    yields row 2 before row 1: the rows come in that order, which is not
    ascending. *)
Lemma list_equipment_scan_order :
  ∃ l, serve (list_route EQUIPMENT) two_mowers
       = (Ok (render_template "equipment_list.html" l), two_mowers)
     ∧ consistent two_mowers
     ∧ row_id <$> l = [2; 1]
     ∧ ¬ Sorted Z.le (row_id <$> l).
Proof.
  eexists. split; [reflexivity|]. split; [by_evaluation|]. split; [reflexivity|].
  simpl. intros H. inversion H as [|x l Hl Hhd]; subst.
  inversion Hhd; subst. lia.
Qed.

(** C9, amended.  For each of the six entities and every store, the list
    route renders the rows of the entity's table, all of them and nothing
    else, in the order in which the table yields them (the query has no
    [order_by]), and leaves the store as it was; in particular a table
    without rows gives the empty sequence. *)
Theorem list_route_all_rows (e : Entity) (st : Store) :
  ∃ l, serve (list_route e) st = (Ok (render_template (list_template e) l), st)
     ∧ l = rows (table e st)
     ∧ row_id <$> l = pks (table e st)
     ∧ length l = length (pks (table e st)).
Proof.
  exists (rows (table e st)). split; [by destruct e|]. split; [done|].
  split; [done|]. unfold pks. by rewrite length_fmap.
Qed.

(** ** Creating and editing *)

Lemma round_half_away_multiple (a d : Z) :
  0 < d → round_half_away (a * d) d = a.
Proof.
  intros Hd. unfold round_half_away.
  rewrite Z.sgn_mul, (Z.sgn_pos d Hd), Z.mul_1_r.
  rewrite Z.abs_mul, (Z.abs_eq d) by lia.
  replace (2 * (Z.abs a * d) + d) with (d + Z.abs a * (2 * d)) by ring.
  rewrite Z.div_add by lia. rewrite (Z.div_small d (2 * d)) by lia.
  rewrite Z.add_0_l, Z.mul_comm. apply Z.abs_sgn.
Qed.

Lemma numeric_10_2_in_exact (text : string) (cents : Z) (q : decimal) :
  numeric_10_2_in text = Ok cents → decimal_in text = Some q →
  (scale q ≤ 2)%nat → cents * 10 ^ Z.of_nat (scale q) = mantissa q * 100.
Proof.
  unfold numeric_10_2_in. intros H Hq Hs. rewrite Hq in H.
  destruct (_ <? _); [|done]. injection H as <-.
  replace (mantissa q * 100)
    with (mantissa q * 10 ^ Z.of_nat (2 - scale q) * 10 ^ Z.of_nat (scale q)).
  - rewrite round_half_away_multiple; [done|]. apply Z.pow_pos_nonneg; lia.
  - rewrite <- Z.mul_assoc, <- Z.pow_add_r by lia.
    replace (Z.of_nat (2 - scale q) + Z.of_nat (scale q)) with 2 by lia. done.
Qed.

Lemma INSERT_ok {C} (c : C) (t t' : Table C) :
  INSERT c t = Ok t' →
  (next_id t ∉ pks t)
  ∧ rows t' = rows t ++ [mkRow (next_id t) c]
  ∧ get_or_404 t' (next_id t) = Ok (mkRow (next_id t) c).
Proof.
  unfold INSERT. destruct (decide _) as [|Hfresh]; [done|].
  intros [= <-]. split; [done|]. split; [done|].
  unfold get_or_404, query_get. simpl. rewrite filter_app.
  rewrite (filter_none (λ r, row_id r = next_id t) (rows t)).
  - simpl. rewrite filter_cons. simpl. by destruct (decide _).
  - intros r Hr E. apply Hfresh. rewrite <- E. apply list_elem_of_fmap; eauto.
Qed.

Lemma request_form_Ok (req : Request) (k v : string) :
  request_form req k = Ok v ↔ form req !! k = Some v.
Proof. unfold request_form. destruct (form req !! k); naive_solver. Qed.

Lemma varchar_in_Ok (n : nat) (s s' : string) :
  varchar_in n s = Ok s' → s' = s ∧ (String.length s ≤ n)%nat.
Proof.
  unfold varchar_in. destruct (Nat.leb_spec (String.length s) n); naive_solver.
Qed.

Lemma check_fk_Ok {P} (parent : Table P) (k : Z) (u : unit) :
  check_fk parent (Some k) = Ok u → k ∈ pks parent.
Proof. unfold check_fk. by destruct (decide _). Qed.

(** Case analysis along a computation that returned. *)
Ltac route_cases H :=
  repeat match type of H with
  | context [mbind _ ?m] =>
      destruct m eqn:?; simpl in H; [|discriminate H]
  | context [match ?m with Ok _ => _ | Raise _ => _ end] =>
      destruct m eqn:?; simpl in H; [|discriminate H]
  end.

Ltac values_facts :=
  repeat match goal with
  | H : varchar_in _ _ = Ok _ |- _ => apply varchar_in_Ok in H as [-> ?]
  | H : check_fk _ (Some _) = Ok _ |- _ => apply check_fk_Ok in H
  | H : request_form _ _ = Ok _ |- _ => apply request_form_Ok in H
  | H : Ok _ = Ok _ |- _ => injection H as H; try subst
  end.

Ltac unfold_routes :=
  unfold create_equipment, create_event, create_plan, create_asset,
    create_need, create_completed, edit_equipment, edit_event, edit_plan,
    edit_asset, edit_need, edit_completed,
    INSERT_equipment, INSERT_toro_event, INSERT_maintenance_plan,
    INSERT_material_assets, INSERT_needs, INSERT_completed_work,
    UPDATE_equipment, UPDATE_toro_event, UPDATE_maintenance_plan,
    UPDATE_material_assets, UPDATE_needs, UPDATE_completed_work.

Ltac result_cases :=
  repeat match goal with
  | |- context [mbind _ ?m] =>
      lazymatch m with
      | context [mbind] => fail
      | _ => destruct m; simpl; try reflexivity
      end
  end.

Lemma create_route_POST (e : Entity) (req : Request) (st : Store) :
  method req = POST →
  create_route e req st
  = (c ← bound_values e req st;
     t ← INSERT c (table e st);
     Ok (redirect (list_endpoint e), set_table e t st)).
Proof.
  intros Hm. destruct e; simpl; unfold_routes; rewrite Hm; result_cases.
Qed.

Lemma edit_route_POST (e : Entity) (req : Request) (id : Z) (st : Store) :
  method req = POST →
  edit_route e req id st
  = (r ← get_or_404 (table e st) id;
     c ← bound_values e req st;
     Ok (redirect (list_endpoint e),
         set_table e (UPDATE (row_id r) c (table e st)) st)).
Proof.
  intros Hm. destruct e; simpl; unfold_routes; rewrite Hm; result_cases.
Qed.



Lemma varchar_in_accepts n s : accepts (VARCHAR n) s → varchar_in n s = Ok s.
Proof.
  simpl. unfold varchar_in. intros H.
  by destruct (Nat.leb_spec (String.length s) n); [|lia].
Qed.










(** The facts about the form that a hypothesis on all columns gives. *)
Ltac all_columns Hcols l :=
  lazymatch l with
  | (?k, ?c) :: ?l' =>
      let text := fresh "text" in
      let E := fresh "E" in
      let A := fresh "A" in
      destruct (Hcols k c) as (text & E & A); [simpl; set_solver|];
      simpl in A; all_columns Hcols l'
  | _ => idtac
  end.

Ltac accepted :=
  repeat match goal with
  | E : form ?req !! ?k = Some _ |- context [request_form ?req ?k] =>
      unfold request_form at 1; rewrite E; simpl
  | A : ∃ z, integer_in ?t = Ok z |- _ => destruct A as [? A]
  | A : ∃ z, numeric_10_2_in ?t = Ok z |- _ => destruct A as [? A]
  | A : ∃ z, strptime_Ymd ?t = Ok z |- _ => destruct A as [? A]
  | A : ∃ z, optional_date ?t = Ok z |- _ => destruct A as [? A]
  | A : integer_in ?t = Ok _ |- context [integer_in ?t] => rewrite A; simpl
  | A : numeric_10_2_in ?t = Ok _ |- context [numeric_10_2_in ?t] =>
      rewrite A; simpl
  | A : strptime_Ymd ?t = Ok _ |- context [strptime_Ymd ?t] => rewrite A; simpl
  | A : optional_date ?t = Ok _ |- context [optional_date ?t] => rewrite A; simpl
  | A : (String.length ?t ≤ ?n)%nat |- context [varchar_in ?n ?t] =>
      rewrite (varchar_in_accepts n t A); simpl
  end.

Ltac form_accepted e Hcols :=
  let l := eval cbv [columns] in (columns e) in
  all_columns Hcols l;
  unfold bound_values, equipment_values, toro_event_values,
    maintenance_plan_values, material_assets_values, needs_values,
    completed_work_values;
  accepted.


(** A form with every key, text that every column takes and references
    that resolve gives the values to store. *)
Ltac resolve_reference Hrefs :=
  match goal with
  | A : integer_in ?t = Ok ?z, E : form _ !! ?k = Some ?t |- ?z ∈ pks _ =>
      first [ apply (Hrefs k EQUIPMENT t z) | apply (Hrefs k EVENT t z)
            | apply (Hrefs k PLAN t z) | apply (Hrefs k ASSET t z) ];
      [simpl; set_solver | exact E | exact A]
  end.

Lemma bound_values_accepted (e : Entity) (req : Request) (st : Store) :
  (∀ k c, (k, c) ∈ columns e →
          ∃ text, form req !! k = Some text ∧ accepts c text) →
  (∀ k parent text z, (k, parent) ∈ references e →
                      form req !! k = Some text → integer_in text = Ok z →
                      has_row parent st z) →
  ∃ c, bound_values e req st = Ok c.
Proof.
  intros Hcols Hrefs.
  destruct e;
    [form_accepted EQUIPMENT Hcols | form_accepted EVENT Hcols
    | form_accepted PLAN Hcols | form_accepted ASSET Hcols
    | form_accepted NEED Hcols | form_accepted COMPLETED Hcols];
    eauto; unfold check_fk; simpl;
    repeat (rewrite decide_True by resolve_reference Hrefs; simpl);
    eauto.
Qed.

(** The values to store are what the form supplies, and their references
    resolve. *)
Lemma bound_values_Ok (e : Entity) (req : Request) (st : Store) (c : Cols e) :
  bound_values e req st = Ok c →
  submitted e req c
  ∧ (∀ k col, (k, col) ∈ columns e →
              ∃ text, form req !! k = Some text ∧ accepts col text)
  ∧ (∀ k parent text z, (k, parent) ∈ references e →
                        form req !! k = Some text → integer_in text = Ok z →
                        has_row parent st z).
Proof.
  intros H.
  destruct e; simpl in *;
    unfold equipment_values, toro_event_values, maintenance_plan_values,
      material_assets_values, needs_values, completed_work_values in H;
    route_cases H; values_facts;
    (split; [|split]);
    [ eauto 20 | | | eauto 20 | | | eauto 20 | | | | | | eauto 20 | | | eauto 20 | | ];
    try (intros k col Hk;
         repeat (apply elem_of_cons in Hk as [[= -> ->] | Hk]);
         try (by apply elem_of_nil in Hk);
         (eexists; split; [eassumption | simpl; eauto]));
    try (intros k parent text z Hk Htext Hz;
         repeat (apply elem_of_cons in Hk as [[= -> ->] | Hk]);
         try (by apply elem_of_nil in Hk);
         unfold has_row; simpl; congruence).
  do 3 eexists. repeat (split; [eassumption|]). split; [|done].
  intros q. by apply numeric_10_2_in_exact.
Qed.

Lemma pks_UPDATE {C} (i : Z) (c : C) (t : Table C) :
  pks (UPDATE i c t) = pks t.
Proof.
  unfold pks, UPDATE. simpl. rewrite <- list_fmap_compose.
  apply list_fmap_ext. intros n r _. simpl. by destruct (decide _).
Qed.

Lemma query_get_UPDATE {C} (i j : Z) (c : C) (t : Table C) :
  query_get (UPDATE i c t) j
  = if decide (j = i) then (λ _, mkRow i c) <$> query_get t i
    else query_get t j.
Proof.
  unfold query_get, UPDATE. simpl.
  set (f := λ r : Row C, if decide (row_id r = i) then mkRow i c else r).
  assert (∀ l, filter (λ r, row_id r = j) (f <$> l)
               = f <$> filter (λ r, row_id r = j) l) as ->.
  { induction l as [|r l IH]; [done|]. rewrite fmap_cons, !filter_cons, IH.
    assert (row_id (f r) = row_id r) as ->
      by (unfold f; by destruct (decide _)).
    by destruct (decide (row_id r = j)). }
  destruct (filter _ (rows t)) as [|r l] eqn:E.
  - simpl. destruct (decide (j = i)) as [->|Hji]; [|done].
    fold (filter (λ r, row_id r = i) (rows t)). by rewrite E.
  - assert (row_id r = j) as Hr.
    { assert (r ∈ filter (λ r, row_id r = j) (rows t)) as Hr
        by (rewrite E; left).
      by apply list_elem_of_filter in Hr as [Hr _]. }
    simpl. unfold f. destruct (decide (j = i)) as [->|Hji].
    + rewrite decide_True by done.
      fold (filter (λ r, row_id r = i) (rows t)). by rewrite E.
    + rewrite decide_False; [done|congruence].
Qed.

Lemma table_set_table (e : Entity) (t : Table (Cols e)) (st : Store) :
  table e (set_table e t st) = t.
Proof. by destruct e. Qed.

Lemma table_set_table_ne (e e' : Entity) (t : Table (Cols e)) (st : Store) :
  e' ≠ e → table e' (set_table e t st) = table e' st.
Proof. by destruct e, e'. Qed.


Lemma create_route_GET (e : Entity) (req : Request) (st : Store) :
  method req = GET →
  ∃ template context,
    create_route e req st = Ok (render_template template context, st).
Proof.
  intros Hm. destruct e; simpl; unfold_routes; rewrite Hm;
    do 2 eexists; reflexivity.
Qed.

Lemma edit_route_GET (e : Entity) (req : Request) (id : Z) (st : Store) :
  method req = GET →
  edit_route e req id st = Raise NotFound
  ∨ ∃ template context,
      edit_route e req id st = Ok (render_template template context, st).
Proof.
  intros Hm. destruct e; simpl; unfold_routes; rewrite Hm;
    unfold get_or_404;
    match goal with |- context [query_get ?t ?i] =>
      destruct (query_get t i) end; simpl; eauto.
Qed.

(** A [POST] to the create route succeeds when the columns take the text
    of the form, the references resolve and the next value of the
    sequence is not in use. *)
Lemma create_route_succeeds (e : Entity) (req : Request) (st : Store) :
  method req = POST →
  (∀ k c, (k, c) ∈ columns e →
          ∃ text, form req !! k = Some text ∧ accepts c text) →
  (∀ k parent text z, (k, parent) ∈ references e →
                      form req !! k = Some text → integer_in text = Ok z →
                      has_row parent st z) →
  next_id (table e st) ∉ pks (table e st) →
  ∃ st', serve (create_route e req) st
         = (Ok (redirect (list_endpoint e)), st').
Proof.
  intros Hm Hcols Hrefs Hfresh. unfold serve.
  rewrite (create_route_POST e req st Hm).
  destruct (bound_values_accepted e req st Hcols Hrefs) as [c ->]. simpl.
  unfold INSERT. rewrite decide_False by done. simpl. eauto.
Qed.













(** ** Consistency is invariant *)

Lemma fk_resolves_mono {P} (t t' : Table P) (fk : option Z) :
  pks t ⊆ pks t' → fk_resolves t fk → fk_resolves t' fk.
Proof. destruct fk; simpl; set_solver. Qed.

Lemma pks_INSERT {C} (c : C) (t t' : Table C) :
  INSERT c t = Ok t' → pks t' = pks t ++ [next_id t].
Proof.
  intros H. apply INSERT_ok in H as (_ & H & _). unfold pks.
  by rewrite H, fmap_app.
Qed.

Lemma NoDup_pks_INSERT {C} (c : C) (t t' : Table C) :
  NoDup (pks t) → INSERT c t = Ok t' → NoDup (pks t').
Proof.
  intros Hnd H. rewrite (pks_INSERT _ _ _ H).
  apply INSERT_ok in H as (Hfresh & _).
  apply NoDup_app. split; [done|]. split; [|apply NoDup_singleton].
  intros x Hx ->%list_elem_of_singleton. done.
Qed.

Lemma bound_values_resolve (e : Entity) (req : Request) (st : Store)
    (c : Cols e) :
  bound_values e req st = Ok c → row_resolves e st c.
Proof.
  intros H. apply bound_values_Ok in H as (Hc & _ & Hrefs).
  unfold has_row in Hrefs.
  destruct e; simpl in *; [done|done| |done| |].
  - destruct Hc as (? & ? & ? & q & v & ? & ? & ? & ? & ? & ->). simpl.
    split; [eapply (Hrefs "equipmentid" EQUIPMENT)
           |eapply (Hrefs "eventid" EVENT)]; eauto; set_solver.
  - destruct Hc as (? & ? & ? & p & a & n & ? & ? & ? & ? & ? & ? & ->). simpl.
    split; [eapply (Hrefs "maintenanceplanid" PLAN)
           |eapply (Hrefs "materialassetid" ASSET)]; eauto; set_solver.
  - destruct Hc as (? & ? & p & d & ? & ? & ? & ? & ->). simpl.
    eapply (Hrefs "maintenanceplanid" PLAN); eauto; set_solver.
Qed.

Lemma rows_resolve (e : Entity) (st : Store) :
  foreign_keys st → Forall (λ r, row_resolves e st (cols r)) (rows (table e st)).
Proof.
  intros (Fp & Fn & Fw). destruct e; simpl; try done;
    by apply Forall_forall.
Qed.

(** Replacing the table of an entity by one with at least its keys, none
    twice, and rows whose references resolve keeps the store
    consistent. *)
Lemma set_table_consistent (e : Entity) (t : Table (Cols e)) (st : Store) :
  consistent st → NoDup (pks t) → pks (table e st) ⊆ pks t →
  Forall (λ r, row_resolves e st (cols r)) (rows t) →
  consistent (set_table e t st).
Proof.
  intros [(Hq & Hv & Hp & Ha & Hn & Hw) (Fp & Fn & Fw)] Hnd Hsub Hrows.
  unfold consistent, primary_keys, foreign_keys.
  destruct e; simpl in *; (split; [done|]); repeat split; try done;
    (eapply Forall_impl; [eassumption|]); simpl; intros r H;
    intuition eauto using fk_resolves_mono.
Qed.

Lemma INSERT_consistent (e : Entity) (c : Cols e) (t : Table (Cols e))
    (st : Store) :
  consistent st → INSERT c (table e st) = Ok t → row_resolves e st c →
  consistent (set_table e t st).
Proof.
  intros Hst Hi Hc.
  pose proof (pks_INSERT _ _ _ Hi) as Hpks.
  pose proof (INSERT_ok _ _ _ Hi) as (_ & Hrows & _).
  apply set_table_consistent; [done| | |].
  - eapply NoDup_pks_INSERT; [|done].
    destruct Hst as [(? & ? & ? & ? & ? & ?) _]. by destruct e.
  - rewrite Hpks. set_solver.
  - rewrite Hrows. apply Forall_app. split; [apply rows_resolve, Hst|].
    by apply Forall_singleton.
Qed.

Lemma UPDATE_consistent (e : Entity) (i : Z) (c : Cols e) (st : Store) :
  consistent st → row_resolves e st c →
  consistent (set_table e (UPDATE i c (table e st)) st).
Proof.
  intros Hst Hc. apply set_table_consistent; [done| | |].
  - rewrite pks_UPDATE.
    destruct Hst as [(? & ? & ? & ? & ? & ?) _]. by destruct e.
  - by rewrite pks_UPDATE.
  - simpl. apply Forall_fmap. eapply Forall_impl; [apply rows_resolve, Hst|].
    intros r Hr. simpl. by destruct (decide _).
Qed.

Lemma create_route_consistent (e : Entity) (req : Request) (st : Store) :
  consistent st → consistent (serve (create_route e req) st).2.
Proof.
  intros Hst. unfold serve. destruct (method req) eqn:Hm.
  - by destruct (create_route_GET e req st Hm) as (tpl & ctx & ->).
  - rewrite (create_route_POST e req st Hm).
    destruct (bound_values e req st) as [c|] eqn:Hc; [|done]. simpl.
    destruct (INSERT c (table e st)) as [t|] eqn:Ht; [|done]. simpl.
    eapply INSERT_consistent; [done..|]. by eapply bound_values_resolve.
Qed.

Lemma edit_route_consistent (e : Entity) (req : Request) (id : Z)
    (st : Store) :
  consistent st → consistent (serve (edit_route e req id) st).2.
Proof.
  intros Hst. unfold serve. destruct (method req) eqn:Hm.
  - by destruct (edit_route_GET e req id st Hm) as [-> | (tpl & ctx & ->)].
  - rewrite (edit_route_POST e req id st Hm).
    destruct (get_or_404 (table e st) id) as [r|]; [|done]. simpl.
    destruct (bound_values e req st) as [c|] eqn:Hc; [|done]. simpl.
    apply UPDATE_consistent; [done|]. by eapply bound_values_resolve.
Qed.

Lemma list_route_consistent (e : Entity) (st : Store) :
  consistent st → consistent (serve (list_route e) st).2.
Proof. by destruct e. Qed.

Lemma Forall_filter_rows {A} (P Q : A → Prop) `{HQdec : !∀ x, Decision (Q x)}
    (l : list A) :
  Forall P l → Forall P (filter Q l).
Proof.
  rewrite !Forall_forall. intros H x [_ Hx]%list_elem_of_filter. auto.
Qed.

Lemma delete_plan_consistent (st : Store) (id : Z) :
  consistent st → consistent (serve (delete_plan id) st).2.
Proof.
  intros [Hpk Hfk]. destruct (decide (has_row PLAN st id)) as [Hrow|Hrow].
  2:{ unfold serve, has_row, delete_plan in *. simpl in *.
      by rewrite (get_or_404_NotFound _ _ Hrow). }
  rewrite (delete_plan_store st id Hpk Hrow). simpl.
  split; [by apply without_plans_primary_keys|].
  destruct (without_plans_children (λ p, row_id p = id) st Hfk) as [Hn Hw].
  split; [|by split]. simpl. apply Forall_filter_rows, Hfk.
Qed.

Lemma delete_leaf_consistent (e : Entity) (st : Store) (id : Z) :
  e = NEED ∨ e = COMPLETED → consistent st →
  consistent (serve (delete_route e id) st).2.
Proof.
  intros He [(Hq & Hv & Hp & Ha & Hn & Hw) (Fp & Fn & Fw)]. unfold serve.
  destruct He as [-> | ->]; simpl; unfold delete_need, delete_completed;
    match goal with |- context [get_or_404 ?t ?i] =>
      destruct (get_or_404 t i) end; simpl; try done;
    (split; [repeat split; try done; by apply NoDup_pks_DELETE|]);
    repeat split; try done; simpl; by apply Forall_filter_rows.
Qed.

Lemma delete_asset_consistent (st : Store) (id : Z) :
  consistent st → consistent (serve (delete_asset id) st).2.
Proof.
  intros [(Hq & Hv & Hp & Ha & Hn & Hw) (Fp & Fn & Fw)].
  unfold serve, delete_asset.
  destruct (get_or_404 (material_assets st) id) as [a|] eqn:E; [|done].
  simpl. unfold consistent, primary_keys, foreign_keys.
  rewrite session_delete_asset_needs. simpl.
  split.
  { repeat split; try done; [by apply NoDup_pks_filter|].
    fold (UPDATE_in (row_id <$> MaterialAsset_needs st a)
            (λ c, Need.mk (Need.maintenanceplanid c) None (Need.quantity c))
            (needs st)).
    by rewrite pks_UPDATE_in. }
  repeat split; try done.
  apply Forall_fmap, Forall_forall. intros n Hin.
  rewrite Forall_forall in Fn. destruct (Fn n Hin) as [H1 H2]. simpl.
  destruct (decide (row_id n ∈ _)) as [|Hout]; simpl; [done|].
  split; [done|]. apply pks_resolve_after_DELETE; [done|].
  intros r Hr Efk Hdel. apply Hout, list_elem_of_fmap. exists n.
  split; [done|]. apply list_elem_of_filter. split; [|done].
  rewrite Efk. f_equal. set_solver.
Qed.

(** X1.  Every route keeps the store consistent: unique primary keys and
    resolved foreign keys are an invariant of the application. *)
Theorem routes_keep_consistency (e : Entity) (req : Request) (id : Z)
    (st : Store) :
  consistent st →
  consistent (serve (list_route e) st).2
  ∧ consistent (serve (create_route e req) st).2
  ∧ consistent (serve (edit_route e req id) st).2
  ∧ consistent (serve (delete_route e id) st).2.
Proof.
  intros Hst.
  split; [by apply list_route_consistent|].
  split; [by apply create_route_consistent|].
  split; [by apply edit_route_consistent|].
  destruct e.
  - apply delete_owner_consistent; auto.
  - apply delete_owner_consistent; auto.
  - by apply delete_plan_consistent.
  - by apply delete_asset_consistent.
  - apply delete_leaf_consistent; auto.
  - apply delete_leaf_consistent; auto.
Qed.

Example empty_store_consistent : consistent empty_store.
Proof. by_evaluation. Qed.

(** ** Further properties of the routes *)

(** X2.  A [GET] never writes, whatever the form holds: the create route
    renders the form of the entity with no row, and the edit route of a
    row that is present renders it with that row (for a plan, a need or
    a completed work together with all the rows that its references can
    name); the store stays as it was. *)
Theorem GET_renders_the_form (e : Entity) (req : Request) (id : Z)
    (st : Store) :
  method req = GET →
  serve (create_route e req) st
  = (Ok (render_template (form_template e) (form_context e st None)), st)
  ∧ ∀ r, query_get (table e st) id = Some r →
         serve (edit_route e req id) st
         = (Ok (render_template (form_template e) (form_context e st (Some r))),
            st).
Proof.
  intros Hm. unfold serve. split.
  - destruct e; simpl; unfold_routes; by rewrite Hm.
  - intros r Hr. destruct e; simpl in *; unfold_routes; unfold get_or_404;
      by rewrite Hr, Hm.
Qed.

Lemma GET_renders_the_form_witness :
  serve (edit_route NEED (mkRequest GET ∅) 1) scenario
  = (Ok (render_template "needs_form.html"
           (Some (mkRow 1 (Need.mk (Some 1) (Some 1) (Some 2))),
            rows (maintenance_plan scenario),
            rows (material_assets scenario))), scenario).
Proof.
  apply (proj2 (GET_renders_the_form NEED (mkRequest GET ∅) 1 scenario
                  eq_refl)).
  reflexivity.
Defined.

Lemma bound_values_ext (e : Entity) (req req' : Request) (st : Store) :
  (∀ k, k ∈ form_keys e → form req !! k = form req' !! k) →
  bound_values e req st = bound_values e req' st.
Proof.
  intros H. destruct e; unfold bound_values, request_form;
    repeat (match goal with
            | |- context [form req !! ?k] =>
                rewrite (H k) by (unfold form_keys; simpl; set_solver)
            end); reflexivity.
Qed.

(** X3.  The create and edit routes of an entity read the method and
    the form keys of that entity and nothing else of the request: two
    requests that agree on them are served alike. *)
Theorem routes_read_their_keys (e : Entity) (req req' : Request) (id : Z)
    (st : Store) :
  method req = method req' →
  (∀ k, k ∈ form_keys e → form req !! k = form req' !! k) →
  serve (create_route e req) st = serve (create_route e req') st
  ∧ serve (edit_route e req id) st = serve (edit_route e req' id) st.
Proof.
  intros Hm Hk. unfold serve. destruct (method req) eqn:E; symmetry in Hm.
  - split.
    + destruct e; simpl; unfold_routes; by rewrite E, Hm.
    + destruct e; simpl; unfold_routes; by rewrite E, Hm.
  - rewrite !(create_route_POST e _ st), !(edit_route_POST e _ id st) by done.
    by rewrite (bound_values_ext e req req' st Hk).
Qed.

Lemma routes_read_their_keys_witness :
  serve (create_route EVENT
           (POST_form [("name", "Oiling"); ("description", "");
                       ("csrf_token", "t0")])) scenario
  = serve (create_route EVENT
             (POST_form [("name", "Oiling"); ("description", "")])) scenario.
Proof.
  apply (routes_read_their_keys EVENT _ _ 0 scenario); [reflexivity|].
  intros k Hk. unfold form_keys in Hk. simpl in Hk.
  repeat (apply elem_of_cons in Hk as [-> | Hk]);
    [reflexivity..|by apply elem_of_nil in Hk].
Defined.






Lemma row_count_set_table (e : Entity) (t : Table (Cols e)) (st : Store) :
  (row_count (set_table e t st) + length (rows (table e st)))%nat
  = (row_count st + length (rows t))%nat.
Proof. destruct e; unfold row_count; simpl; lia. Qed.

(** X6.  A create that succeeds appends one row to the table of its
    entity, under the next identifier of the sequence, which it advances
    by one; the rows that were there, and every other table, stay as
    they were, so the store has exactly one row more. *)
Theorem create_adds_one_row (e : Entity) (req : Request) (st st' : Store) :
  serve (create_route e req) st = (Ok (redirect (list_endpoint e)), st') →
  (∃ c, rows (table e st')
        = rows (table e st) ++ [mkRow (next_id (table e st)) c])
  ∧ next_id (table e st') = next_id (table e st) + 1
  ∧ (∀ e', e' ≠ e → table e' st' = table e' st)
  ∧ row_count st' = S (row_count st).
Proof.
  unfold serve. intros H. destruct (method req) eqn:Hm.
  - destruct (create_route_GET e req st Hm) as (tpl & ctx & E).
    rewrite E in H. discriminate H.
  - rewrite (create_route_POST e req st Hm) in H.
    destruct (bound_values e req st) as [c|]; [|discriminate H]. simpl in H.
    destruct (INSERT c (table e st)) as [t|] eqn:Ht; [|discriminate H].
    simpl in H. injection H as <-.
    pose proof (row_count_set_table e t st) as Hcount.
    unfold INSERT in Ht. destruct (decide _); [discriminate Ht|].
    injection Ht as <-. rewrite table_set_table. simpl in *.
    split; [eauto|]. split; [done|].
    split; [intros e' He'; by apply table_set_table_ne|].
    rewrite length_app in Hcount. simpl in Hcount. lia.
Qed.

Lemma create_adds_one_row_witness :
  row_count (serve (create_route EVENT
                      (POST_form [("name", "Oiling"); ("description", "")]))
                   scenario).2
  = 6%nat.
Proof.
  destruct (create_adds_one_row EVENT
              (POST_form [("name", "Oiling"); ("description", "")]) scenario
              (serve (create_route EVENT
                        (POST_form [("name", "Oiling"); ("description", "")]))
                     scenario).2) as (_ & _ & _ & H).
  - vm_compute. reflexivity.
  - rewrite H. reflexivity.
Defined.


(** X10.  Cascades do not go sideways: whatever the store, deleting
    equipment leaves the events and the material assets as they were,
    deleting an event leaves the equipment and the material assets as
    they were, and deleting a material asset leaves the equipment, the
    events, the plans and the completed works as they were. *)
Theorem deletes_leave_siblings (st : Store) (id : Z) :
  (toro_event (serve (delete_equipment id) st).2 = toro_event st
   ∧ material_assets (serve (delete_equipment id) st).2 = material_assets st)
  ∧ (equipment (serve (delete_event id) st).2 = equipment st
     ∧ material_assets (serve (delete_event id) st).2 = material_assets st)
  ∧ (equipment (serve (delete_asset id) st).2 = equipment st
     ∧ toro_event (serve (delete_asset id) st).2 = toro_event st
     ∧ maintenance_plan (serve (delete_asset id) st).2 = maintenance_plan st
     ∧ completed_work (serve (delete_asset id) st).2 = completed_work st).
Proof.
  unfold serve, delete_equipment, delete_event, delete_asset.
  repeat split;
    match goal with |- context [get_or_404 ?t ?i] =>
      destruct (get_or_404 t i) end; reflexivity.
Qed.



(** X12.  In a store with unique primary keys, deleting a plan that [M]
    needs and [K] completed works reference removes exactly
    [1 + M + K] rows. *)
Theorem delete_plan_count (st : Store) (id : Z) (M K : nat) :
  primary_keys st → has_row PLAN st id →
  length (filter (λ n, Need.maintenanceplanid (cols n) = Some id)
                 (rows (needs st))) = M →
  length (filter (λ w, CompletedWork.maintenanceplanid (cols w) = Some id)
                 (rows (completed_work st))) = K →
  row_count st = (row_count (serve (delete_plan id) st).2 + (1 + M + K))%nat.
Proof.
  intros Hpk Hrow HM HK. rewrite (delete_plan_store st id Hpk Hrow).
  unfold has_row in Hrow. simpl in Hrow.
  apply query_get_is_Some in Hrow as [r Hr].
  pose proof (query_get_filter _ _ _ (proj1 (proj2 (proj2 Hpk))) Hr) as E.
  destruct (query_get_Some _ _ _ Hr) as [<- _].
  unfold row_count. simpl. rewrite E. simpl.
  rewrite (length_filter_split (λ p, row_id p = row_id r)
             (rows (maintenance_plan st))), E.
  rewrite (length_filter_split
             (λ n, Need.maintenanceplanid (cols n) = Some (row_id r))
             (rows (needs st))), HM.
  rewrite (length_filter_split
             (λ w, CompletedWork.maintenanceplanid (cols w) = Some (row_id r))
             (rows (completed_work st))), HK.
  rewrite (filter_ext_in
             (λ n, ¬ fk_in [row_id r] (Need.maintenanceplanid (cols n)))
             (λ n, ¬ Need.maintenanceplanid (cols n) = Some (row_id r)))
    by (intros; by rewrite fk_in_singleton).
  rewrite (filter_ext_in
             (λ w, ¬ fk_in [row_id r] (CompletedWork.maintenanceplanid (cols w)))
             (λ w, ¬ CompletedWork.maintenanceplanid (cols w) = Some (row_id r)))
    by (intros; by rewrite fk_in_singleton).
  simpl. lia.
Qed.

Lemma delete_plan_count_witness :
  row_count scenario = (row_count (serve (delete_plan 1) scenario).2 + 2)%nat.
Proof.
  apply (delete_plan_count scenario 1 1 0).
  - apply scenario_consistent.
  - by_evaluation.
  - reflexivity.
  - reflexivity.
Defined.

Lemma filter_out_inserted {C} (P : Row C → Prop) `{HPdec : !∀ r, Decision (P r)}
    (c : C) (t t' : Table C) :
  INSERT c t = Ok t' →
  (∀ r, P r ↔ row_id r = next_id t) →
  filter (λ r, ¬ P r) (rows t') = rows t.
Proof.
  intros Hi HP. apply INSERT_ok in Hi as (Hfresh & -> & _).
  rewrite filter_app, filter_all.
  - rewrite filter_cons, decide_False, filter_nil, app_nil_r; [done|].
    intros Hn. apply Hn, HP. done.
  - intros r Hr HPr. apply HP in HPr. apply Hfresh. rewrite <- HPr.
    apply list_elem_of_fmap. eauto.
Qed.

Lemma no_reference_to_fresh {P} (parent : Table P) (fk : option Z) (i : Z) :
  i ∉ pks parent → fk_resolves parent fk → fk ≠ Some i.
Proof. intros Hi Hfk ->. done. Qed.

Lemma UPDATE_in_nil {C} (f : C → C) (t : Table C) : UPDATE_in [] f t = t.
Proof.
  destruct t as [l n]. unfold UPDATE_in. simpl. f_equal.
  rewrite <- (list_fmap_id l) at 2. apply list_fmap_ext.
  intros i r _. simpl. destruct (decide (row_id r ∈ [])) as [H|]; [|done].
  by apply elem_of_nil in H.
Qed.

(** X9.  In a consistent store, deleting the row that a create has
    just added gives back the rows of every table as they were before
    the create (only the sequence of the table has advanced): nothing
    else references the new row, so no cascade removes or changes
    anything. *)
Theorem create_then_delete (e : Entity) (req : Request) (st st' : Store) :
  consistent st →
  serve (create_route e req) st = (Ok (redirect (list_endpoint e)), st') →
  ∃ st'', serve (delete_route e (next_id (table e st))) st'
          = (Ok (redirect (list_endpoint e)), st'')
        ∧ ∀ e', rows (table e' st'') = rows (table e' st).
Proof.
  intros Hst H. unfold serve in H. destruct (method req) eqn:Hm.
  { destruct (create_route_GET e req st Hm) as (tpl & ctx & E).
    rewrite E in H. discriminate H. }
  rewrite (create_route_POST e req st Hm) in H.
  destruct (bound_values e req st) as [c|] eqn:Hc; [|discriminate H].
  simpl in H.
  destruct (INSERT c (table e st)) as [t|] eqn:Ht; [|discriminate H].
  simpl in H. injection H as <-.
  assert (consistent (set_table e t st)) as [Hpk' Hfk'].
  { eapply INSERT_consistent; [done..|]. by eapply bound_values_resolve. }
  pose proof (INSERT_ok _ _ _ Ht) as (Hfresh & Hrows & Hget).
  set (i := next_id (table e st)) in *.
  destruct Hst as [Hpk (Fp & Fn & Fw)].
  rewrite Forall_forall in Fp. rewrite Forall_forall in Fn.
  rewrite Forall_forall in Fw.
  assert (has_row e (set_table e t st) i) as Hrow.
  { unfold has_row. rewrite table_set_table, (pks_INSERT _ _ _ Ht).
    set_solver. }
  destruct e.
  - destruct (delete_owner_store EQUIPMENT _ i (or_introl eq_refl) Hpk' Hrow)
      as (st'' & Hs & Htab & Hother & Hassets & Hplans & Hneeds & Hworks).
    exists st''. split; [exact Hs|]. simpl in *.
    assert (∀ p, p ∈ rows (maintenance_plan st) →
                 MaintenancePlan.equipmentid (cols p) ≠ Some i) as Hnone.
    { intros p Hp. eapply no_reference_to_fresh; [done|]. by apply Fp. }
    intros []; simpl.
    + rewrite Htab. by apply (filter_out_inserted (λ r, row_id r ∈ [i]) c);
        [|set_solver].
    + pose proof (Hother EVENT (or_intror eq_refl) ltac:(done)) as E.
      simpl in E. by rewrite E.
    + rewrite Hplans. simpl. by apply filter_all.
    + by rewrite Hassets.
    + rewrite Hneeds. unfold dependent_plans. simpl.
      rewrite (filter_none _ _ Hnone). simpl. apply filter_all.
      intros n _. apply fk_in_nil.
    + rewrite Hworks. unfold dependent_plans. simpl.
      rewrite (filter_none _ _ Hnone). simpl. apply filter_all.
      intros n _. apply fk_in_nil.
  - destruct (delete_owner_store EVENT _ i (or_intror eq_refl) Hpk' Hrow)
      as (st'' & Hs & Htab & Hother & Hassets & Hplans & Hneeds & Hworks).
    exists st''. split; [exact Hs|]. simpl in *.
    assert (∀ p, p ∈ rows (maintenance_plan st) →
                 MaintenancePlan.eventid (cols p) ≠ Some i) as Hnone.
    { intros p Hp. eapply no_reference_to_fresh; [done|]. by apply Fp. }
    intros []; simpl.
    + pose proof (Hother EQUIPMENT (or_introl eq_refl) ltac:(done)) as E.
      simpl in E. by rewrite E.
    + rewrite Htab. by apply (filter_out_inserted (λ r, row_id r ∈ [i]) c);
        [|set_solver].
    + rewrite Hplans. simpl. by apply filter_all.
    + by rewrite Hassets.
    + rewrite Hneeds. unfold dependent_plans. simpl.
      rewrite (filter_none _ _ Hnone). simpl. apply filter_all.
      intros n _. apply fk_in_nil.
    + rewrite Hworks. unfold dependent_plans. simpl.
      rewrite (filter_none _ _ Hnone). simpl. apply filter_all.
      intros n _. apply fk_in_nil.
  - simpl in *. rewrite (delete_plan_store _ i Hpk' Hrow).
    eexists. split; [reflexivity|].
    assert (filter (λ p, row_id p = i) (rows t)
            = [mkRow i c]) as E.
    { rewrite Hrows, filter_app.
      rewrite (filter_none (λ p, row_id p = i) (rows (maintenance_plan st))).
      - rewrite filter_cons. simpl. by rewrite decide_True.
      - intros r Hr Hi. apply Hfresh. rewrite <- Hi.
        apply list_elem_of_fmap; eauto. }
    intros []; simpl; try done.
    + by apply (filter_out_inserted (λ r, row_id r = i) c).
    + rewrite E. simpl. apply filter_all. intros n Hn Hin.
      apply fk_in_singleton in Hin. destruct (Fn n Hn) as [H1 _].
      by apply (no_reference_to_fresh _ _ i Hfresh H1).
    + rewrite E. simpl. apply filter_all. intros w Hw Hin.
      apply fk_in_singleton in Hin.
      by apply (no_reference_to_fresh _ _ i Hfresh (Fw w Hw)).
  - simpl in *.
    assert (needs (session_delete_asset (mkRow i c) (set_material_assets t st))
            = needs st) as Hneeds.
    { rewrite session_delete_asset_needs. unfold MaterialAsset_needs. simpl.
      rewrite filter_none; [apply UPDATE_in_nil|].
      intros n Hn. destruct (Fn n Hn) as [_ H2].
      by apply (no_reference_to_fresh _ _ i Hfresh H2). }
    unfold serve, delete_asset. simpl. rewrite Hget. simpl.
    eexists. split; [reflexivity|].
    intros []; try done.
    + by apply (filter_out_inserted (λ r, row_id r ∈ [i]) c); [|set_solver].
    + exact (f_equal rows Hneeds).
  - simpl in *. unfold serve, delete_need. simpl. rewrite Hget. simpl.
    eexists. split; [reflexivity|].
    intros []; simpl; try done.
    by apply (filter_out_inserted (λ r, row_id r ∈ [i]) c); [|set_solver].
  - simpl in *. unfold serve, delete_completed. simpl. rewrite Hget. simpl.
    eexists. split; [reflexivity|].
    intros []; simpl; try done.
    by apply (filter_out_inserted (λ r, row_id r ∈ [i]) c); [|set_solver].
Qed.

Lemma is_digit_value (c : ascii) : is_digit c = true → 0 ≤ digit_value c ≤ 9.
Proof.
  unfold is_digit, digit_value. intros [H1 H2]%andb_prop.
  apply Nat.leb_le in H1, H2. lia.
Qed.

Lemma digits_value_bounds (s : string) (acc : Z) :
  all_digits s = true → 0 ≤ acc →
  acc * 10 ^ Z.of_nat (String.length s) ≤ digits_value acc s
  < (acc + 1) * 10 ^ Z.of_nat (String.length s).
Proof.
  revert acc. induction s as [|c s IH]; intros acc Hs Hacc; simpl in *.
  - lia.
  - apply andb_prop in Hs as [Hc Hs]. apply is_digit_value in Hc.
    specialize (IH (10 * acc + digit_value c) Hs ltac:(lia)).
    rewrite Nat2Z.inj_succ, Z.pow_succ_r by lia.
    assert (0 < 10 ^ Z.of_nat (String.length s)) by (apply Z.pow_pos_nonneg; lia).
    nia.
Qed.

Lemma directive_Y_bounds (s : string) (y : Z) :
  directive_Y s = Some y → 0 ≤ y ≤ 9999.
Proof.
  unfold directive_Y, unsigned_in.
  destruct (Nat.eqb_spec (String.length s) 4) as [Hlen|]; [|done].
  destruct s; [done|]. destruct (all_digits _) eqn:Hs; [|done].
  intros [= <-]. pose proof (digits_value_bounds _ 0 Hs ltac:(lia)) as H.
  rewrite Hlen in H. simpl in H. lia.
Qed.

Lemma directive_m_bounds (s : string) (m : Z) :
  directive_m s = Some m → 1 ≤ m ≤ 12.
Proof.
  unfold directive_m. repeat case_match; try done. intros [= <-]. lia.
Qed.

Lemma directive_d_bounds (s : string) (d : Z) : directive_d s = Some d → 1 ≤ d.
Proof.
  unfold directive_d. intros H.
  repeat (case_match; try done); simplify_eq; try lia;
    match goal with
    | H : is_digit ?c && negb (Ascii.eqb ?c "0") = true |- _ =>
        apply andb_prop in H as [H1 H2]; apply is_digit_value in H1;
        apply negb_true_iff, Ascii.eqb_neq in H2
    end.
  all: unfold digit_value in *;
    match goal with
    | H : ?c ≠ "0"%char |- _ =>
        assert (nat_of_ascii c ≠ 48%nat)
          by (intros E; apply H; rewrite <- (ascii_nat_embedding c), E; done)
    end; lia.
Qed.

Lemma strptime_Ymd_valid (s : string) (d : date) :
  strptime_Ymd s = Ok d → valid_date d.
Proof.
  unfold strptime_Ymd. intros H.
  repeat (case_match; try done). simplify_eq. unfold valid_date. simpl.
  repeat match goal with
  | H : directive_Y _ = Some _ |- _ => apply directive_Y_bounds in H
  | H : directive_m _ = Some _ |- _ => apply directive_m_bounds in H
  | H : directive_d _ = Some _ |- _ => apply directive_d_bounds in H
  end. lia.
Qed.

Lemma rows_dates_valid (e : Entity) (st : Store) :
  dates_valid st →
  Forall (λ r, cols_dates_valid e (cols r)) (rows (table e st)).
Proof.
  intros [Hq Hw]. destruct e; simpl; try done; by apply Forall_forall.
Qed.

Lemma set_table_dates_valid (e : Entity) (t : Table (Cols e)) (st : Store) :
  dates_valid st → Forall (λ r, cols_dates_valid e (cols r)) (rows t) →
  dates_valid (set_table e t st).
Proof. intros [Hq Hw] Ht. by destruct e. Qed.

Lemma optional_date_valid (text : string) (o : option date) (d : date) :
  optional_date text = Ok o → o = Some d → valid_date d.
Proof.
  unfold optional_date. destruct (decide _); [by intros [= <-]|].
  destruct (strptime_Ymd text) as [d'|] eqn:E; [|done]. simpl.
  intros [= <-] [= ->]. by apply strptime_Ymd_valid in E.
Qed.

Lemma bound_values_dates_valid (e : Entity) (req : Request) (st : Store)
    (c : Cols e) :
  bound_values e req st = Ok c → cols_dates_valid e c.
Proof.
  intros H. apply bound_values_Ok in H as (Hc & _).
  destruct e; simpl in *; try done.
  - destruct Hc as (? & ? & ? & text & o & _ & _ & _ & _ & Ho & ->). simpl.
    intros d. by apply (optional_date_valid text o).
  - destruct Hc as (? & text & ? & d' & _ & _ & _ & Hd & ->). simpl.
    intros d [= <-]. by apply strptime_Ymd_valid in Hd.
Qed.

Lemma delete_route_dated_rows (e : Entity) (id : Z) (st : Store) :
  rows (equipment (serve (delete_route e id) st).2) ⊆ rows (equipment st)
  ∧ rows (completed_work (serve (delete_route e id) st).2)
    ⊆ rows (completed_work st).
Proof.
  unfold serve.
  destruct e; simpl;
    unfold delete_equipment, delete_event, delete_plan, delete_asset,
      delete_need, delete_completed;
    match goal with |- context [get_or_404 ?t ?i] =>
      destruct (get_or_404 t i) end; simpl; (split; [|]); try done;
    intros x Hx; repeat (apply list_elem_of_filter in Hx as [_ Hx]); done.
Qed.

(** X14.  Every route keeps the dates in the store dates of the
    calendar (year 1 to 9999, month 1 to 12, a day of that month): the
    only dates a create or an edit stores are those that [strptime]
    returned. *)
Theorem routes_keep_dates_valid (e : Entity) (req : Request) (id : Z)
    (st : Store) :
  dates_valid st →
  dates_valid (serve (list_route e) st).2
  ∧ dates_valid (serve (create_route e req) st).2
  ∧ dates_valid (serve (edit_route e req id) st).2
  ∧ dates_valid (serve (delete_route e id) st).2.
Proof.
  intros Hst. split; [by destruct e|]. split; [|split].
  - unfold serve. destruct (method req) eqn:Hm.
    { by destruct (create_route_GET e req st Hm) as (tpl & ctx & ->). }
    rewrite (create_route_POST e req st Hm).
    destruct (bound_values e req st) as [c|] eqn:Hc; [|done]. simpl.
    destruct (INSERT c (table e st)) as [t|] eqn:Ht; [|done]. simpl.
    apply set_table_dates_valid; [done|].
    apply INSERT_ok in Ht as (_ & -> & _).
    apply Forall_app. split; [by apply rows_dates_valid|].
    apply Forall_singleton. simpl. by eapply bound_values_dates_valid.
  - unfold serve. destruct (method req) eqn:Hm.
    { by destruct (edit_route_GET e req id st Hm) as [-> | (tpl & ctx & ->)]. }
    rewrite (edit_route_POST e req id st Hm).
    destruct (get_or_404 (table e st) id) as [r|]; [|done]. simpl.
    destruct (bound_values e req st) as [c|] eqn:Hc; [|done]. simpl.
    apply set_table_dates_valid; [done|]. simpl.
    apply Forall_fmap. eapply Forall_impl; [by apply rows_dates_valid|].
    intros x Hx. simpl. destruct (decide _); [|done]. simpl.
    by eapply bound_values_dates_valid.
  - destruct (delete_route_dated_rows e id st) as [Hq Hw].
    destruct Hst as [Fq Fw]. rewrite Forall_forall in Fq.
    rewrite Forall_forall in Fw.
    split; apply Forall_forall; intros x Hx;
      [apply (Fq x), Hq, Hx | apply (Fw x), Hw, Hx].
Qed.

Example scenario_dates_valid : dates_valid scenario.
Proof.
  split.
  - apply Forall_singleton. by intros d.
  - apply Forall_nil_2.
Qed.

Lemma routes_keep_dates_valid_witness :
  dates_valid
    (serve (create_route COMPLETED
              (POST_form [("maintenanceplanid", "1");
                          ("completion_date", "2024-02-29")])) scenario).2.
Proof.
  apply (routes_keep_dates_valid COMPLETED _ 0 scenario).
  apply scenario_dates_valid.
Defined.

Lemma create_route_returns (e : Entity) (req : Request) (st st' : Store) :
  serve (create_route e req) st = (Ok (redirect (list_endpoint e)), st') →
  ∃ c t, bound_values e req st = Ok c ∧ INSERT c (table e st) = Ok t
       ∧ st' = set_table e t st.
Proof.
  unfold serve. intros H. destruct (method req) eqn:Hm.
  - destruct (create_route_GET e req st Hm) as (tpl & ctx & E).
    rewrite E in H. discriminate H.
  - rewrite (create_route_POST e req st Hm) in H.
    destruct (bound_values e req st) as [c|] eqn:Hc; [|discriminate H].
    simpl in H.
    destruct (INSERT c (table e st)) as [t|] eqn:Ht; [|discriminate H].
    simpl in H. injection H as <-. by exists c, t.
Qed.

Lemma edit_route_returns (e : Entity) (req : Request) (id : Z)
    (st st' : Store) :
  serve (edit_route e req id) st = (Ok (redirect (list_endpoint e)), st') →
  ∃ r c, query_get (table e st) id = Some r ∧ bound_values e req st = Ok c
       ∧ st' = set_table e (UPDATE id c (table e st)) st.
Proof.
  unfold serve. intros H. destruct (method req) eqn:Hm.
  - destruct (edit_route_GET e req id st Hm) as [E | (tpl & ctx & E)];
      rewrite E in H; discriminate H.
  - rewrite (edit_route_POST e req id st Hm) in H. unfold get_or_404 in H.
    destruct (query_get (table e st) id) as [r|] eqn:Hq; [|discriminate H].
    simpl in H.
    destruct (bound_values e req st) as [c|] eqn:Hc; [|discriminate H].
    simpl in H. injection H as <-.
    destruct (query_get_Some _ _ _ Hq) as [Hid _]. rewrite Hid in *.
    by exists r, c.
Qed.

Lemma bound_values_empty_date (req : Request) (st : Store) (c : Equipment.t) :
  form req !! "lastmaintenancedate" = Some EmptyString →
  bound_values EQUIPMENT req st = Ok c →
  Equipment.lastmaintenancedate c = None.
Proof.
  intros Hd H. apply bound_values_Ok in H as (Hc & _). simpl in Hc.
  destruct Hc as (? & ? & ? & text & o & _ & _ & _ & Ht & Ho & ->). simpl.
  rewrite Hd in Ht. injection Ht as <-. by injection Ho as <-.
Qed.

(** X13.  The two date fields treat empty text differently.  With an
    empty [completion_date] a [POST] to the create route of
    [CompletedWork], or to the edit route of a completed work that is
    present, fails with [ValueError] and leaves the store as it was; with
    an empty [lastmaintenancedate] a create or an edit of [Equipment]
    that succeeds stores NULL as the date of the row. *)
Theorem empty_date_text (req : Request) (st : Store) :
  method req = POST →
  (is_Some (form req !! "maintenanceplanid") →
   form req !! "completion_date" = Some EmptyString →
   serve (create_completed req) st = (Raise ValueError, st)
   ∧ ∀ id, has_row COMPLETED st id →
           serve (edit_completed req id) st = (Raise ValueError, st))
  ∧ (form req !! "lastmaintenancedate" = Some EmptyString →
     ∀ st',
       (serve (create_equipment req) st
        = (Ok (redirect "list_equipment"), st') →
        ∃ r, get_or_404 (equipment st') (next_id (equipment st)) = Ok r
           ∧ Equipment.lastmaintenancedate (cols r) = None)
       ∧ ∀ id, serve (edit_equipment req id) st
               = (Ok (redirect "list_equipment"), st') →
               ∃ r, get_or_404 (equipment st') id = Ok r
                  ∧ Equipment.lastmaintenancedate (cols r) = None).
Proof.
  intros Hm. split.
  - intros [mp Hmp] Hd.
    assert (bound_values COMPLETED req st = Raise ValueError) as Hv.
    { unfold bound_values, request_form. by rewrite Hmp, Hd. }
    unfold serve. split.
    + change (create_completed req st) with (create_route COMPLETED req st).
      by rewrite (create_route_POST COMPLETED req st Hm), Hv.
    + intros id Hrow.
      change (edit_completed req id st)
        with (edit_route COMPLETED req id st).
      rewrite (edit_route_POST COMPLETED req id st Hm), Hv.
      by destruct (get_or_404_found _ _ Hrow) as (r & -> & _).
  - intros Hd st'. split.
    + intros H.
      apply (create_route_returns EQUIPMENT) in H as (c & t & Hc & Ht & ->).
      apply INSERT_ok in Ht as (_ & _ & Hget). eexists.
      split; [exact Hget|]. simpl. by eapply bound_values_empty_date.
    + intros id H.
      apply (edit_route_returns EQUIPMENT) in H as (r & c & Hq & Hc & ->).
      exists (mkRow id c). split; [|by eapply bound_values_empty_date].
      unfold get_or_404. simpl in *.
      by rewrite query_get_UPDATE, decide_True, Hq.
Qed.

Lemma empty_date_text_witness :
  serve (create_completed
           (POST_form [("maintenanceplanid", "1"); ("completion_date", "")]))
        scenario
  = (Raise ValueError, scenario).
Proof.
  apply (empty_date_text
           (POST_form [("maintenanceplanid", "1"); ("completion_date", "")])
           scenario eq_refl).
  - by eexists.
  - reflexivity.
Defined.

Lemma create_then_delete_witness :
  ∃ st'',
    serve (delete_route ASSET 2)
          (serve (create_route ASSET
                    (POST_form [("materialname", "Oil"); ("price", "3.5")]))
                 scenario).2
    = (Ok (redirect "list_assets"), st'')
    ∧ rows (material_assets st'') = rows (material_assets scenario)
    ∧ rows (needs st'') = rows (needs scenario).
Proof.
  destruct (create_then_delete ASSET
              (POST_form [("materialname", "Oil"); ("price", "3.5")]) scenario
              (serve (create_route ASSET
                        (POST_form [("materialname", "Oil"); ("price", "3.5")]))
                     scenario).2) as (st'' & H1 & H2).
  - apply scenario_consistent.
  - vm_compute. reflexivity.
  - exists st''. split; [exact H1|].
    split; [exact (H2 ASSET) | exact (H2 NEED)].
Defined.












Lemma routes_keep_consistency_witness :
  consistent
    (serve (delete_route EVENT 1)
           (serve (create_route NEED
                     (POST_form [("maintenanceplanid", "1");
                                 ("materialassetid", "1"); ("quantity", "4")]))
                  scenario).2).2.
Proof.
  apply (routes_keep_consistency EVENT (mkRequest GET ∅) 1).
  apply (routes_keep_consistency NEED _ 0 scenario).
  apply scenario_consistent.
Defined.


